(** * ci.py: grafting a library checkout into the ET:Legacy build tree

    A shallow embedding of [ci.py] and the properties of its submodule
    removal, its graft copy and its top-level workflow.

    Python text is a sequence of Unicode code points; the operations of
    [str] the script uses ([splitlines], [strip], [startswith], [join])
    are written out below as CPython defines them. *)

From Stdlib Require Import String Ascii.
From Stdlib Require Import List NArith ZArith Bool Lia.
Import ListNotations.

(** ** Python strings *)

Module PyStr.

Definition char := N.
Definition pystr := list char.

Definition LF : char := 10%N.
Definition CR : char := 13%N.
Definition QUOTE : char := 34%N.
Definition LBRACKET : char := 91%N.
Definition RBRACKET : char := 93%N.

(** An ASCII literal as Python text. *)
Fixpoint lit (s : string) : pystr :=
  match s with
  | EmptyString => []
  | String a rest => N_of_ascii a :: lit rest
  end.

Definition char_eqb : char -> char -> bool := N.eqb.

Fixpoint eqb (a b : pystr) : bool :=
  match a, b with
  | [], [] => true
  | x :: a', y :: b' => char_eqb x y && eqb a' b'
  | _, _ => false
  end.

(** [str.isspace] on one code point (Py_UNICODE_ISSPACE). *)
Definition isspace (c : char) : bool :=
  ((9 <=? c) && (c <=? 13) || (28 <=? c) && (c <=? 32)
   || (c =? 133) || (c =? 160) || (c =? 5760)
   || (8192 <=? c) && (c <=? 8202)
   || (c =? 8232) || (c =? 8233) || (c =? 8239) || (c =? 8287)
   || (c =? 12288))%N.

(** The line boundaries of [str.splitlines] (Py_UNICODE_ISLINEBREAK). *)
Definition is_linebreak (c : char) : bool :=
  ((10 <=? c) && (c <=? 13) || (28 <=? c) && (c <=? 30)
   || (c =? 133) || (c =? 8232) || (c =? 8233))%N.

Fixpoint lstrip (s : pystr) : pystr :=
  match s with
  | [] => []
  | c :: rest => if isspace c then lstrip rest else s
  end.

Definition rstrip (s : pystr) : pystr := rev (lstrip (rev s)).

(** [s.strip()] *)
Definition strip (s : pystr) : pystr := rstrip (lstrip s).

(** [s.startswith(prefix)] *)
Fixpoint startswith (s prefix : pystr) {struct prefix} : bool :=
  match prefix, s with
  | [], _ => true
  | p :: prefix', c :: s' => char_eqb c p && startswith s' prefix'
  | _ :: _, [] => false
  end.

(** [s.splitlines()]: [cur] holds the current line reversed; a line is
    emitted at every boundary, a CR LF pair counts as one boundary, and
    what follows the last boundary is a line only when it is not empty. *)
Fixpoint splitlines_from (cur : pystr) (s : pystr) : list pystr :=
  match s with
  | [] => match cur with [] => [] | _ => [rev cur] end
  | c :: rest =>
      if is_linebreak c then
        rev cur ::
        match rest with
        | c' :: rest' =>
            if char_eqb c CR && char_eqb c' LF
            then splitlines_from [] rest'
            else splitlines_from [] rest
        | [] => splitlines_from [] rest
        end
      else splitlines_from (c :: cur) rest
  end.

Definition splitlines (s : pystr) : list pystr := splitlines_from [] s.

(** [sep.join(parts)] *)
Fixpoint join (sep : pystr) (parts : list pystr) : pystr :=
  match parts with
  | [] => []
  | [p] => p
  | p :: rest => p ++ sep ++ join sep rest
  end.

(** Universal-newline translation of text-mode reading ([newline=None]):
    CR LF and a lone CR both arrive as LF. *)
Fixpoint universal_newlines (s : pystr) : pystr :=
  match s with
  | [] => []
  | c :: rest =>
      if char_eqb c CR then
        LF :: match rest with
              | c' :: rest' =>
                  if char_eqb c' LF then universal_newlines rest'
                  else universal_newlines rest
              | [] => []
              end
      else c :: universal_newlines rest
  end.

End PyStr.

Import PyStr.

(** ** The text fallback of [remove_submodule] (lines 37-50) *)

Module Fallback.

(** [f"[submodule \"{name}\"]"] *)
Definition section_header (name : pystr) : pystr :=
  lit "[submodule " ++ [QUOTE] ++ name ++ [QUOTE; RBRACKET].

(** [line.strip().startswith(f"[submodule \"{name}\"]")] *)
Definition opens_target (name line : pystr) : bool :=
  startswith (strip line) (section_header name).

(** [line.strip().startswith("[")] *)
Definition opens_section (line : pystr) : bool :=
  startswith (strip line) [LBRACKET].

(** One pass of the loop body over [line]; the state is the pair
    [(skip, new_lines)]. *)
Definition loop_body (name : pystr) (st : bool * list pystr) (line : pystr)
  : bool * list pystr :=
  let '(skip, new_lines) := st in
  if opens_target name line then (true, new_lines)          (* continue *)
  else
    let skip := if skip && opens_section line then false else skip in
    if negb skip then (skip, new_lines ++ [line]) else (skip, new_lines).

(** [new_lines] after the loop over [lines]. *)
Definition kept_lines (name : pystr) (lines : list pystr) : list pystr :=
  snd (fold_left (loop_body name) lines (false, [])).

(** From [content] as read to [new_content] as written (lines 38-49). *)
Definition new_content (name content : pystr) : pystr :=
  join [LF] (kept_lines name (splitlines content)) ++ [LF].

(** The whole fallback on the text stored in the file: [read_text]
    translates newlines, [write_text] stores the text as it is (POSIX). *)
Definition rewrite_file (name stored : pystr) : pystr :=
  new_content name (universal_newlines stored).

(** A file ends with exactly one newline: its last character is LF and
    the one before, if any, is not. *)
Definition one_trailing_newline (s : pystr) : bool :=
  match rev s with
  | c :: rest =>
      char_eqb c LF && match rest with c' :: _ => negb (char_eqb c' LF) | [] => true end
  | [] => false
  end.

Definition ends_with_newline (s : pystr) : bool :=
  match rev s with
  | c :: _ => char_eqb c LF
  | [] => false
  end.

(** *** Well-formed registry files

    A registry as git writes it: a sequence of sections, each a header
    line [[submodule "<name>"]] followed by its entry lines. *)

Record section := mkSection { sec_name : pystr; sec_entries : list pystr }.

Definition render_section (s : section) : list pystr :=
  section_header (sec_name s) :: sec_entries s.

(** Every line is terminated by one LF. *)
Definition unlines (ls : list pystr) : pystr :=
  concat (map (fun l => l ++ [LF]) ls).

Definition render (cfg : list section) : pystr :=
  unlines (flat_map render_section cfg).

Definition no_linebreak (s : pystr) : bool :=
  forallb (fun c => negb (is_linebreak c)) s.

(** No carriage return, so that reading in text mode changes nothing. *)
Definition no_cr (s : pystr) : bool := forallb (fun c => negb (char_eqb c CR)) s.

(** A submodule name holds no line break and no double quote. *)
Definition wf_name (n : pystr) : bool :=
  forallb (fun c => negb (is_linebreak c) && negb (char_eqb c QUOTE)) n.

(** An entry is a line (a setting, a comment, or blank) that does not
    open a section. *)
Definition wf_entry (l : pystr) : bool :=
  no_linebreak l && negb (opens_section l).

Definition wf_section (s : section) : bool :=
  wf_name (sec_name s) && forallb wf_entry (sec_entries s).

Definition well_formed (cfg : list section) : bool := forallb wf_section cfg.

Definition occurrences (name : pystr) (cfg : list section) : nat :=
  length (filter (fun s => eqb (sec_name s) name) cfg).

(** The registry with the sections called [name] taken out. *)
Definition without (name : pystr) (cfg : list section) : list section :=
  filter (fun s => negb (eqb (sec_name s) name)) cfg.

(** The rendered registry ends with an empty line. *)
Definition ends_with_blank_line (cfg : list section) : bool :=
  match rev (flat_map render_section cfg) with
  | [] :: _ => true
  | _ => false
  end.

(** At least two lines, the last of them empty. *)
Definition blank_tail (lines : list pystr) : bool :=
  match rev lines with
  | [] :: _ :: _ => true
  | _ => false
  end.

(** The loop as a recursion on the lines still to read, [skip] being the
    flag on entry; [kept_lines_scan] below shows it is the loop. *)
Fixpoint scan (name : pystr) (skip : bool) (lines : list pystr) : list pystr :=
  match lines with
  | [] => []
  | line :: rest =>
      if opens_target name line then scan name true rest
      else
        let skip := if skip && opens_section line then false else skip in
        if negb skip then line :: scan name skip rest else scan name skip rest
  end.

(** The claimed behaviour of a skip region, in the words of the
    specification: the lines from the first line opening a section on;
    nothing when no line opens one. *)
Fixpoint from_next_section (lines : list pystr) : list pystr :=
  match lines with
  | [] => []
  | l :: rest => if opens_section l then lines else from_next_section rest
  end.

End Fallback.

Import Fallback.

Definition libs : pystr := lit "libs".


Definition TAB : char := 9%N.

Definition libs_section : section :=
  mkSection libs [TAB :: lit "path = libs";
                  TAB :: lit "url = https://github.com/etlegacy/etlegacy-libs.git"].

Definition other_section : section :=
  mkSection (lit "other") [TAB :: lit "path = other"; TAB :: lit "url = ../other.git"].

(** A section whose last entry is an empty line, as when sections are
    set apart by blank lines. *)
Definition spaced_section : section :=
  mkSection (lit "spaced") [TAB :: lit "path = spaced"; []].

(** ** The script's view of the operating system *)

Module Sys.

(** A path, as the components below [Path.cwd()]. *)
Definition path := list pystr.

(** An element of a command line: a literal, or [str(p)] of a path. *)
Inductive arg :=
| Str (s : pystr)
| PathStr (p : path).

Definition command := list arg.

(** What [subprocess.run] can report: the child ran and exited with
    [returncode] (negative when a signal ended it), or it could not be
    started at all. *)
Inductive spawn_result :=
| Exited (returncode : Z) (stdout : pystr)
| NotStarted.

(** The exceptions the script meets: [subprocess.CalledProcessError],
    which it handles, and all the others ([OSError], [shutil.Error],
    [UnicodeDecodeError], ...), which it never does. *)
Inductive exn :=
| CalledProcessError (returncode : Z)
| OtherError.

(** The result of a library call that may raise one of the others. *)
Inductive res (A : Type) :=
| Done (a : A)
| Failed.
Arguments Done {A} a.
Arguments Failed {A}.

(** The operations of [pathlib], [shutil] and [subprocess] the script
    calls, over a world [W]. *)
Record OS (W : Type) := {
  path_exists : path -> W -> bool;                        (* p.exists() *)
  path_is_dir : path -> W -> bool;                        (* p.is_dir() *)
  path_iterdir : path -> W -> res (list pystr);           (* names of p.iterdir() *)
  path_mkdir : path -> W -> res unit * W;                 (* p.mkdir(parents=True, exist_ok=True) *)
  path_read_text : path -> W -> res pystr;                (* p.read_text() *)
  path_write_text : path -> pystr -> W -> res unit * W;   (* p.write_text(s) *)
  subprocess_run : command -> option path -> W -> spawn_result * W;
  shutil_copytree : path -> path -> bool -> W -> res unit * W;  (* copytree(src, dst, symlinks=b) *)
  shutil_copy2 : path -> path -> W -> res unit * W;
  shutil_rmtree : path -> W -> W                          (* rmtree(p, ignore_errors=True) *)
}.
Arguments path_exists {W} o p w.
Arguments path_is_dir {W} o p w.
Arguments path_iterdir {W} o p w.
Arguments path_mkdir {W} o p w.
Arguments path_read_text {W} o p w.
Arguments path_write_text {W} o p s w.
Arguments subprocess_run {W} o cmd cwd w.
Arguments shutil_copytree {W} o src dst symlinks w.
Arguments shutil_copy2 {W} o src dst w.
Arguments shutil_rmtree {W} o p w.

(** What the script prints. *)
Inductive message :=
| Echo (cmd : command)                 (* "+ git ..." *)
| Removing (name : pystr) (p : path)   (* "Removing submodule '...' from ..." *)
| WarnNotInGitmodules (name : pystr)   (* "Warning: submodule.X not found in .gitmodules ..." *)
| WarnNotStaged                        (* "Warning: could not stage .gitmodules" *)
| WarnNotInConfig (name : pystr)       (* "Warning: submodule.X not found in .git/config" *)
| WarnNotUnstaged (name : pystr)       (* "Warning: could not unstage 'X' (maybe not tracked?)" *)
| CopyingLocal (dst : path)            (* "Copying local repository into '...'..." *)
| CopyingBackup                        (* "Copying ci-tmp-bk to ci-tmp..." *)
| Cloning                              (* "Cloning repository..." *)
| Initializing                         (* "Initializing and updating remaining submodules..." *)
| CommandFailed (returncode : Z).      (* "Command failed with exit code N" *)

Definition is_warning (m : message) : bool :=
  match m with
  | WarnNotInGitmodules _ | WarnNotStaged | WarnNotInConfig _ | WarnNotUnstaged _ => true
  | _ => false
  end.

(** The trace of a run: what was printed and which calls were made, with
    their outcome ([ok] says the call did not raise). *)
Inductive event :=
| Print (m : message)
| Run (cmd : command) (cwd : option path) (r : spawn_result)
| ReadText (p : path) (ok : bool)
| WriteText (p : path) (content : pystr) (ok : bool)
| MkDir (p : path) (ok : bool)
| CopyTree (src dst : path) (symlinks : bool) (ok : bool)
| Copy2 (src dst : path) (ok : bool)
| RmTree (p : path).

Inductive outcome (A : Type) :=
| Return (a : A)
| Raise (e : exn).
Arguments Return {A} a.
Arguments Raise {A} e.

Definition is_ok {A} (r : res A) : bool :=
  match r with Done _ => true | Failed => false end.

Definition path_eqb (p q : path) : bool :=
  (length p =? length q)%nat && forallb (fun '(a, b) => PyStr.eqb a b) (combine p q).

Definition arg_eqb (a b : arg) : bool :=
  match a, b with
  | Str s, Str t => PyStr.eqb s t
  | PathStr p, PathStr q => path_eqb p q
  | _, _ => false
  end.

Definition command_eqb (c d : command) : bool :=
  (length c =? length d)%nat && forallb (fun '(a, b) => arg_eqb a b) (combine c d).

End Sys.

Import Sys.

(** ** The monad of the script: a world, a trace, and exceptions *)

Section Script.

Context {W : Type} (os : OS W).

Definition M (A : Type) : Type := W -> outcome A * W * list event.

Definition ret {A} (a : A) : M A := fun w => (Return a, w, []).

Definition bind {A B} (m : M A) (k : A -> M B) : M B :=
  fun w =>
    match m w with
    | (Return a, w1, t1) =>
        match k a w1 with
        | (r, w2, t2) => (r, w2, t1 ++ t2)
        end
    | (Raise e, w1, t1) => (Raise e, w1, t1)
    end.

Definition raise {A} (e : exn) : M A := fun w => (Raise e, w, []).

(** [try: body / except subprocess.CalledProcessError: handler] *)
Definition try_except {A} (body : M A) (handler : M A) : M A :=
  fun w =>
    match body w with
    | (Raise (CalledProcessError _), w1, t1) =>
        match handler w1 with
        | (r, w2, t2) => (r, w2, t1 ++ t2)
        end
    | other => other
    end.

Notation "x <- m ;; k" := (bind m (fun x => k))
  (at level 61, m at next level, right associativity).
Notation "m ;; k" := (bind m (fun _ => k))
  (at level 61, right associativity).

Definition print (m : message) : M unit := fun w => (Return tt, w, [Print m]).

Definition lift_res {A} (r : res A) : outcome A :=
  match r with Done a => Return a | Failed => Raise OtherError end.

Definition exists_ (p : path) : M bool := fun w => (Return (path_exists os p w), w, []).

Definition is_dir (p : path) : M bool := fun w => (Return (path_is_dir os p w), w, []).

Definition iterdir (p : path) : M (list pystr) :=
  fun w => (lift_res (path_iterdir os p w), w, []).

Definition mkdir (p : path) : M unit :=
  fun w => let '(r, w1) := path_mkdir os p w in (lift_res r, w1, [MkDir p (is_ok r)]).

Definition read_text (p : path) : M pystr :=
  fun w => let r := path_read_text os p w in (lift_res r, w, [ReadText p (is_ok r)]).

Definition write_text (p : path) (s : pystr) : M unit :=
  fun w => let '(r, w1) := path_write_text os p s w in (lift_res r, w1, [WriteText p s (is_ok r)]).

Definition copytree (src dst : path) (symlinks : bool) : M unit :=
  fun w => let '(r, w1) := shutil_copytree os src dst symlinks w in
           (lift_res r, w1, [CopyTree src dst symlinks (is_ok r)]).

Definition copy2 (src dst : path) : M unit :=
  fun w => let '(r, w1) := shutil_copy2 os src dst w in
           (lift_res r, w1, [Copy2 src dst (is_ok r)]).

Definition rmtree (p : path) : M unit :=
  fun w => (Return tt, shutil_rmtree os p w, [RmTree p]).

(** [subprocess.run(cmd, check=True, text=True, ...)] *)
Definition subprocess_run_check (cmd : command) (cwd : option path) : M pystr :=
  fun w =>
    let '(r, w1) := subprocess_run os cmd cwd w in
    (match r with
     | Exited returncode stdout =>
         if (returncode =? 0)%Z then Return stdout
         else Raise (CalledProcessError returncode)
     | NotStarted => Raise OtherError
     end, w1, [Run cmd cwd r]).

(** [for x in xs: body(x)] *)
Fixpoint for_each {A} (xs : list A) (body : A -> M unit) : M unit :=
  match xs with
  | [] => ret tt
  | x :: rest => body x ;; for_each rest body
  end.

(** ** The script *)

(** [def run(cmd, capture_output=False, **kwargs)]; the only keyword the
    script passes is [cwd]. *)
Definition run (cmd : command) (capture_output : bool) (cwd : option path)
  : M (option pystr) :=
  print (Echo cmd) ;;
  stdout <- subprocess_run_check cmd cwd ;;
  if capture_output then ret (Some (strip stdout)) else ret None.

Definition git : arg := Str (lit "git").

(** [git config -f <gitmodules> --remove-section submodule.<name>] *)
Definition cmd_remove_from_gitmodules (gitmodules : path) (name : pystr) : command :=
  [git; Str (lit "config"); Str (lit "-f"); PathStr gitmodules;
   Str (lit "--remove-section"); Str (lit "submodule." ++ name)].

(** [git add .gitmodules] *)
Definition cmd_stage : command := [git; Str (lit "add"); Str (lit ".gitmodules")].

(** [git config --remove-section submodule.<name>] *)
Definition cmd_remove_from_config (name : pystr) : command :=
  [git; Str (lit "config"); Str (lit "--remove-section"); Str (lit "submodule." ++ name)].

(** [git rm --cached -f <name>] *)
Definition cmd_unstage (name : pystr) : command :=
  [git; Str (lit "rm"); Str (lit "--cached"); Str (lit "-f"); Str name].

(** [def remove_submodule(path, name)]; [name] is joined to [path] as one
    component, as "libs" is. *)
Definition remove_submodule (path : path) (name : pystr) : M unit :=
  print (Removing name path) ;;
  let gitmodules := path ++ [lit ".gitmodules"] in
  present <- exists_ gitmodules ;;
  modified_gitmodules <-
    (if present then
       try_except
         (run (cmd_remove_from_gitmodules gitmodules name) false (Some path) ;;
          ret true)
         (print (WarnNotInGitmodules name) ;;
          content <- read_text gitmodules ;;
          write_text gitmodules (new_content name content) ;;
          ret true)
     else ret false) ;;
  (if modified_gitmodules then
     try_except (run cmd_stage false (Some path) ;; ret tt)
                (print WarnNotStaged)
   else ret tt) ;;
  try_except (run (cmd_remove_from_config name) false (Some path) ;; ret tt)
             (print (WarnNotInConfig name)) ;;
  try_except (run (cmd_unstage name) false (Some path) ;; ret tt)
             (print (WarnNotUnstaged name)) ;;
  let submodule_path := path ++ [name] in
  there <- exists_ submodule_path ;;
  (if there then rmtree submodule_path else ret tt) ;;
  let modules_dir := path ++ [lit ".git"; lit "modules"; name] in
  there <- exists_ modules_dir ;;
  (if there then rmtree modules_dir else ret tt).

(** [def copy_local_repo_to_libs(src_root, dst_libs, exclude_dir)] *)
Definition copy_local_repo_to_libs (src_root dst_libs : path) (exclude_dir : pystr)
  : M unit :=
  print (CopyingLocal dst_libs) ;;
  mkdir dst_libs ;;
  items <- iterdir src_root ;;
  for_each items (fun item_name =>
    if PyStr.eqb item_name exclude_dir then ret tt          (* continue *)
    else
      let item := src_root ++ [item_name] in
      let target := dst_libs ++ [item_name] in
      d <- is_dir item ;;
      if d then copytree item target true
      else copy2 item target).

Definition root : path := [].
Definition ci_tmp : path := root ++ [lit "ci-tmp"].
Definition ci_tmp_bk : path := root ++ [lit "ci-tmp-bk"].
Definition repo_url : pystr := lit "https://github.com/etlegacy/etlegacy.git".

Definition cmd_clone : command :=
  [git; Str (lit "clone"); Str repo_url; PathStr ci_tmp].

Definition cmd_sync : command := [git; Str (lit "submodule"); Str (lit "sync")].

Definition cmd_update : command :=
  [git; Str (lit "submodule"); Str (lit "update"); Str (lit "--init");
   Str (lit "--recursive")].

(** [def main()] *)
Definition main : M unit :=
  staged <- exists_ ci_tmp ;;
  (if negb staged then
     backed_up <- exists_ ci_tmp_bk ;;
     if backed_up then
       print CopyingBackup ;;
       copytree ci_tmp_bk ci_tmp false
     else
       print Cloning ;;
       run cmd_clone false None ;; ret tt
   else ret tt) ;;
  remove_submodule ci_tmp (lit "libs") ;;
  print Initializing ;;
  run cmd_sync false (Some ci_tmp) ;;
  run cmd_update false (Some ci_tmp) ;;
  let dst_libs := ci_tmp ++ [lit "libs"] in
  copy_local_repo_to_libs root dst_libs (lit "ci-tmp").

(** How the process ends: [sys.exit(status)], reached either at the end of
    the script (status 0) or in the handler of the last lines; or an
    exception nobody caught, which Python reports with a traceback. *)
Inductive ending :=
| Exit (status : Z)
| Uncaught.

(** [if __name__ == "__main__": try: main() except CalledProcessError ...] *)
Definition script (w : W) : ending * W * list event :=
  match main w with
  | (Return _, w1, t) => (Exit 0, w1, t)
  | (Raise (CalledProcessError returncode), w1, t) =>
      (Exit returncode, w1, t ++ [Print (CommandFailed returncode)])
  | (Raise OtherError, w1, t) => (Uncaught, w1, t)
  end.

(** The exit status the parent process observes (POSIX keeps the low
    eight bits; an uncaught exception ends Python with status 1). *)
Definition observed_status (e : ending) : Z :=
  match e with
  | Exit status => status mod 256
  | Uncaught => 1
  end.

(** *** Reading a trace *)

Definition result {A B C} (x : A * B * C) : A := fst (fst x).
Definition trace {A B C} (x : A * B * C) : C := snd x.

Definition ran (cmd : command) (e : event) : bool :=
  match e with
  | Run c _ _ => command_eqb c cmd
  | _ => false
  end.

Definition ran_ok (cmd : command) (e : event) : bool :=
  match e with
  | Run c _ (Exited rc _) => command_eqb c cmd && (rc =? 0)%Z
  | _ => false
  end.

Definition wrote (p : path) (e : event) : bool :=
  match e with
  | WriteText q _ true => path_eqb q p
  | _ => false
  end.

Definition is_clone : event -> bool := ran cmd_clone.

Definition is_backup_copy (e : event) : bool :=
  match e with
  | CopyTree src dst false _ => path_eqb src ci_tmp_bk && path_eqb dst ci_tmp
  | _ => false
  end.

Definition count (f : event -> bool) (t : list event) : nat := length (filter f t).

(** The commands whose failure the script does not handle. *)
Definition is_fatal (cmd : command) : bool :=
  command_eqb cmd cmd_clone || command_eqb cmd cmd_sync || command_eqb cmd cmd_update.

(** A run of such a command that exited with the non-zero [rc]. *)
Definition fatal_failure (rc : Z) (e : event) : bool :=
  match e with
  | Run c _ (Exited rc' _) => is_fatal c && (rc' =? rc)%Z && negb (rc =? 0)%Z
  | _ => false
  end.

(** An event of the final copy step. *)
Definition is_graft (e : event) : bool :=
  match e with
  | Print (CopyingLocal _) | MkDir _ _ | CopyTree _ _ true _ | Copy2 _ _ _ => true
  | _ => false
  end.

(** An event that is neither a command nor a copy that follows links. *)
Definition copy_only (e : event) : bool :=
  match e with
  | Run _ _ _ | CopyTree _ _ false _ => false
  | _ => true
  end.

(** The copies that went through, as pairs of source and target. *)
Fixpoint copies (t : list event) : list (path * path) :=
  match t with
  | [] => []
  | CopyTree src dst true true :: rest => (src, dst) :: copies rest
  | Copy2 src dst true :: rest => (src, dst) :: copies rest
  | _ :: rest => copies rest
  end.

(** A call other than a command that raised. *)
Definition library_error (e : event) : bool :=
  match e with
  | Run _ _ NotStarted => true
  | ReadText _ ok | WriteText _ _ ok | MkDir _ ok | CopyTree _ _ _ ok | Copy2 _ _ ok => negb ok
  | _ => false
  end.

(** Every event of [m] satisfies [P], and [m] raises no
    [CalledProcessError]. *)
Definition confined (P : event -> bool) {A} (m : M A) : Prop :=
  forall w : W,
    forallb P (trace (m w)) = true
    /\ forall rc, result (m w) <> Raise (CalledProcessError rc).

(** Every command that exited non-zero is followed at once by a printed
    warning. *)
Fixpoint failures_warned (t : list event) : bool :=
  match t with
  | [] => true
  | Run _ _ (Exited rc _) :: rest =>
      (if (rc =? 0)%Z then true
       else match rest with
            | Print m :: _ => is_warning m
            | _ => false
            end) && failures_warned rest
  | _ :: rest => failures_warned rest
  end.

End Script.

(** ** A filesystem of trees

    A model of the library calls over a directory tree, for the claims
    about what the copy leaves on disk. A symbolic link carries its target
    text and, when it is not dangling, the node it leads to, as it was
    when the tree was described. The description holds as long as the
    call at hand does not write inside what a link leads to: a tree
    cannot say that a link leads to a directory above the place being
    written to (the working directory itself, the staging directory), and
    [tree_copytree] on such a link is not what [shutil.copytree] does,
    which lists the directory as it grows and fails. The statements on
    what the graft leaves are therefore made for working directories
    whose top-level links lead to files. *)

Module TreeFS.

#[warnings="-register-all"] Inductive node :=
| File (content : pystr) (meta : N)
| Dir (entries : list (pystr * node))
| Symlink (target : pystr) (referent : option node).

Definition dir := list (pystr * node).

Fixpoint assoc (k : pystr) (d : dir) : option node :=
  match d with
  | [] => None
  | (k', v) :: rest => if PyStr.eqb k' k then Some v else assoc k rest
  end.

(** Replace the entry called [k], or add it at the end. *)
Fixpoint set_assoc (k : pystr) (v : node) (d : dir) : dir :=
  match d with
  | [] => [(k, v)]
  | (k', v') :: rest =>
      if PyStr.eqb k' k then (k, v) :: rest else (k', v') :: set_assoc k v rest
  end.

Fixpoint del_assoc (k : pystr) (d : dir) : dir :=
  match d with
  | [] => []
  | (k', v') :: rest =>
      if PyStr.eqb k' k then rest else (k', v') :: del_assoc k rest
  end.

Definition names (d : dir) : list pystr := map fst d.

(** Follow links to what they lead to. *)
Fixpoint resolve (n : node) : option node :=
  match n with
  | Symlink _ (Some m) => resolve m
  | Symlink _ None => None
  | _ => Some n
  end.

(** [os.stat]: the node at [p] below [n], following every link. *)
Fixpoint stat (p : path) (n : node) : option node :=
  match resolve n with
  | None => None
  | Some r =>
      match p with
      | [] => Some r
      | c :: p' =>
          match r with
          | Dir d => match assoc c d with
                     | Some child => stat p' child
                     | None => None
                     end
          | _ => None
          end
      end
  end.

(** [os.lstat]: as [stat], but a link in the last place is not followed. *)
Fixpoint lstat (p : path) (n : node) : option node :=
  match p with
  | [] => Some n
  | c :: p' =>
      match resolve n with
      | Some (Dir d) => match assoc c d with
                        | Some child => lstat p' child
                        | None => None
                        end
      | _ => None
      end
  end.

Definition res_map {A B} (f : A -> B) (r : res A) : res B :=
  match r with Done a => Done (f a) | Failed => Failed end.

(** Change the directory [n] leads to. *)
Fixpoint in_dir (n : node) (g : dir -> res dir) : res node :=
  match n with
  | Dir d => res_map Dir (g d)
  | Symlink t (Some m) => res_map (fun m' => Symlink t (Some m')) (in_dir m g)
  | Symlink _ None => Failed
  | File _ _ => Failed
  end.

(** Change the entry at [p] below the directory [d]: [f] receives the
    entry found there, if any, and gives the entry to leave, if any.
    Every directory on the way must exist. *)
Fixpoint update (p : path) (f : option node -> res (option node)) (d : dir) : res dir :=
  match p with
  | [] => Failed
  | c :: p' =>
      match p' with
      | [] =>
          match f (assoc c d) with
          | Done (Some v) => Done (set_assoc c v d)
          | Done None => Done (del_assoc c d)
          | Failed => Failed
          end
      | _ :: _ =>
          match assoc c d with
          | Some child => res_map (fun child' => set_assoc c child' d)
                                  (in_dir child (update p' f))
          | None => Failed
          end
      end
  end.

Definition leads_to_dir (n : node) : bool :=
  match resolve n with Some (Dir _) => true | _ => false end.

(** [os.makedirs(p, exist_ok=exist_ok)]: the missing directories along
    [p] are created; an entry already at [p] is an error unless it is a
    directory and [exist_ok] is set. *)
Fixpoint makedirs (exist_ok : bool) (p : path) (d : dir) : res dir :=
  match p with
  | [] => Done d
  | c :: p' =>
      match assoc c d with
      | None => res_map (fun sub => set_assoc c (Dir sub) d) (makedirs exist_ok p' [])
      | Some child =>
          match p' with
          | [] => if exist_ok && leads_to_dir child then Done d else Failed
          | _ :: _ => res_map (fun child' => set_assoc c child' d)
                              (in_dir child (makedirs exist_ok p'))
          end
      end
  end.

(** The body of [shutil._copytree] on one entry: what it creates, if
    anything, and whether it recorded an error. With [symlinks] a link is
    recreated as a link; without, what it leads to is copied, and a
    dangling link is an error. *)
Fixpoint copy_node (symlinks : bool) (n : node) : option node * bool :=
  match n with
  | File c m => (Some (File c m), false)
  | Dir d =>
      let fix copy_entries (d : dir) : dir * bool :=
        match d with
        | [] => ([], false)
        | (k, x) :: rest =>
            let '(r, e) := copy_node symlinks x in
            let '(rs, es) := copy_entries rest in
            (match r with Some y => (k, y) :: rs | None => rs end, e || es)
        end in
      let '(d', e) := copy_entries d in (Some (Dir d'), e)
  | Symlink t r =>
      if symlinks then (Some (Symlink t r), false)
      else match r with
           | Some m => copy_node symlinks m
           | None => (None, true)
           end
  end.

(** The entries of a directory copied by [shutil.copytree]. *)
Definition copy_dir (symlinks : bool) (d : dir) : dir * bool :=
  match copy_node symlinks (Dir d) with
  | (Some (Dir d'), e) => (d', e)
  | _ => ([], true)
  end.

(** [shutil.copytree(src, dst, symlinks=symlinks)]: [src] is listed (a
    link to a directory is followed), [dst] is made with its parents and
    must not exist, the entries are copied, and [shutil.Error] is raised
    at the end when an entry could not be. What is listed is the
    directory as the tree has it before [dst] is made: this is the call
    when [dst] does not lie inside the directory [src] leads to. *)
Definition tree_copytree (src dst : path) (symlinks : bool) (w : dir) : res unit * dir :=
  match stat src (Dir w) with
  | Some (Dir sd) =>
      match makedirs false dst w with
      | Done w1 =>
          let '(copied, errors) := copy_dir symlinks sd in
          match update dst (fun _ => Done (Some (Dir copied))) w1 with
          | Done w2 => (if errors then Failed else Done tt, w2)
          | Failed => (Failed, w1)
          end
      | Failed => (Failed, w)
      end
  | _ => (Failed, w)
  end.

(** Writing [new] where [n] is: through links, over a file, never over
    a directory. *)
Fixpoint write_through (n new : node) : res node :=
  match n with
  | File _ _ => Done new
  | Dir _ => Failed
  | Symlink t (Some m) => res_map (fun m' => Symlink t (Some m')) (write_through m new)
  | Symlink t None => Done (Symlink t (Some new))
  end.

Definition put_file (new : node) (o : option node) : res (option node) :=
  match o with
  | None => Done (Some new)
  | Some n => res_map Some (write_through n new)
  end.

(** [shutil.copy2(src, dst)]: the file [src] leads to is copied with its
    metadata; into [dst] under the name of [src] when [dst] is a
    directory. *)
Definition tree_copy2 (src dst : path) (w : dir) : res unit * dir :=
  match stat src (Dir w) with
  | Some (File c m) =>
      let dst' := match stat dst (Dir w) with
                  | Some (Dir _) => dst ++ [last src []]
                  | _ => dst
                  end in
      match update dst' (put_file (File c m)) w with
      | Done w1 => (Done tt, w1)
      | Failed => (Failed, w)
      end
  | _ => (Failed, w)
  end.

(** [shutil.rmtree(p, ignore_errors=True)]: a directory is removed with
    all it holds; a link or a file is left alone. *)
Definition tree_rmtree (p : path) (w : dir) : dir :=
  match lstat p (Dir w) with
  | Some (Dir _) =>
      match update p (fun _ => Done None) w with
      | Done w1 => w1
      | Failed => w
      end
  | _ => w
  end.

Definition tree_exists (p : path) (w : dir) : bool :=
  match stat p (Dir w) with Some _ => true | None => false end.

Definition tree_is_dir (p : path) (w : dir) : bool :=
  match stat p (Dir w) with Some (Dir _) => true | _ => false end.

Definition tree_iterdir (p : path) (w : dir) : res (list pystr) :=
  match stat p (Dir w) with Some (Dir d) => Done (names d) | _ => Failed end.

Definition tree_mkdir (p : path) (w : dir) : res unit * dir :=
  match makedirs true p w with
  | Done w1 => (Done tt, w1)
  | Failed => (Failed, w)
  end.

Definition tree_read_text (p : path) (w : dir) : res pystr :=
  match stat p (Dir w) with
  | Some (File c _) => Done (universal_newlines c)
  | _ => Failed
  end.

Definition tree_write_text (p : path) (s : pystr) (w : dir) : res unit * dir :=
  let write o :=
    match o with
    | None => Done (Some (File s 0%N))
    | Some n =>
        match resolve n with
        | Some (File _ m) => res_map Some (write_through n (File s m))
        | Some _ => Failed
        | None => res_map Some (write_through n (File s 0%N))
        end
    end in
  match update p write w with
  | Done w1 => (Done tt, w1)
  | Failed => (Failed, w)
  end.

(** The tree filesystem with [git] as the behaviour of external
    commands. *)
Definition tree_os (git : command -> option path -> dir -> spawn_result * dir) : OS dir :=
  {| path_exists := tree_exists;
     path_is_dir := tree_is_dir;
     path_iterdir := tree_iterdir;
     path_mkdir := tree_mkdir;
     path_read_text := tree_read_text;
     path_write_text := tree_write_text;
     subprocess_run := git;
     shutil_copytree := tree_copytree;
     shutil_copy2 := tree_copy2;
     shutil_rmtree := tree_rmtree |}.




End TreeFS.

Import TreeFS.

(** *** Sample worlds *)

Definition readme : node := File (lit "ET: Legacy libraries") 420%N.

(** The staging checkout: a registry with two submodules, one of them
    "libs", and the submodule's directory. *)
Definition staging : dir :=
  [ (lit ".gitmodules", File (render [other_section; libs_section]) 420%N);
    (lit "libs", Dir [(lit "old.c", File (lit "int old;") 420%N)]);
    (lit "src", Dir []) ].

(** A working directory without staging directory: a file, a link to it,
    a directory that holds a dangling link, the repository metadata. *)
Definition fresh : dir :=
  [ (lit "README.md", readme);
    (lit "latest", Symlink (lit "README.md") (Some readme));
    (lit "sdl", Dir [(lit "include", Symlink (lit "../include") None);
                     (lit "sdl.c", File (lit "int sdl;") 420%N)]);
    (lit ".git", Dir [(lit "HEAD", File (lit "ref: refs/heads/master") 420%N)]) ].

(** The same with a backup of the staging checkout. *)
Definition backed_up : dir := fresh ++ [(lit "ci-tmp-bk", Dir staging)].


(** The same with the staging checkout in place as cloned. *)
Definition staged : dir := fresh ++ [(lit "ci-tmp", Dir staging)].

(** A git all of whose commands exit with [rc] and change nothing. *)
Definition git_exits (rc : Z) : command -> option path -> dir -> spawn_result * dir :=
  fun _ _ v => (Exited rc [], v).

(** A git whose clone puts the staging checkout in place, whose section
    removals and index removal find nothing to remove, and whose submodule
    update fails with status 1. *)
Definition git_update_fails (cmd : command) (cwd : option path) (v : dir)
  : spawn_result * dir :=
  match cmd with
  | _ :: Str verb :: _ =>
      if PyStr.eqb verb (lit "clone")
      then (Exited 0 [], set_assoc (lit "ci-tmp") (Dir staging) v)
      else if PyStr.eqb verb (lit "config") then (Exited 5 [], v)
      else if PyStr.eqb verb (lit "rm") then (Exited 128 [], v)
      else if command_eqb cmd cmd_update then (Exited 1 [], v)
      else (Exited 0 [], v)
  | _ => (NotStarted, v)
  end.

(** ** Further readings of texts and traces *)

(** [a] is [b] with some elements left out, the order kept. *)
Inductive subsequence {A : Type} : list A -> list A -> Prop :=
| subsequence_nil : subsequence [] []
| subsequence_keep x a b : subsequence a b -> subsequence (x :: a) (x :: b)
| subsequence_drop x a b : subsequence a b -> subsequence a (x :: b).

Definition all_space (s : pystr) : bool := forallb isspace s.

Definition starts_with_space (s : pystr) : bool :=
  match s with
  | c :: _ => isspace c
  | [] => false
  end.

Definition ends_with_space (s : pystr) : bool := starts_with_space (rev s).

(** A registry with two sections called "libs" and one whose name only
    begins with "libs". *)
Definition crowded_registry : list section :=
  [ libs_section;
    mkSection (lit "libs2") [TAB :: lit "path = libs2"];
    other_section;
    mkSection libs [TAB :: lit "path = elsewhere"] ].

(** A git whose commands all succeed and print [stdout]. *)
Definition git_says (stdout : pystr)
  : command -> option path -> dir -> spawn_result * dir :=
  fun _ _ v => (Exited 0 stdout, v).

Section ReadingRuns.

Context {W : Type}.

(** Every event of [m] satisfies [P]. *)
Definition within (P : event -> bool) {A} (m : @M W A) : Prop :=
  forall w : W, forallb P (trace (m w)) = true.

(** How [m] fails: a library call that raised is the last event and
    leaves [m] by an exception that is not [CalledProcessError]; and a
    [CalledProcessError] carries the non-zero return code of the command
    run last. *)
Definition orderly {A} (m : @M W A) : Prop :=
  forall w : W,
    existsb library_error (removelast (trace (m w))) = false
    /\ (existsb library_error (trace (m w)) = true -> result (m w) = Raise OtherError)
    /\ (forall rc, result (m w) = Raise (CalledProcessError rc) ->
          rc <> 0%Z
          /\ exists t cmd cwd out, trace (m w) = t ++ [Run cmd cwd (Exited rc out)]).

End ReadingRuns.

(** The events [remove_submodule path name] may produce: prints, its
    four commands run in [path], the registry read and written, and the
    removal of the submodule's two directories. *)
Definition removal_event (path : path) (name : pystr) (e : event) : bool :=
  match e with
  | Print _ => true
  | Run c cwd _ =>
      match cwd with
      | Some d => path_eqb d path
      | None => false
      end
      && (command_eqb c (cmd_remove_from_gitmodules (path ++ [lit ".gitmodules"]) name)
          || command_eqb c cmd_stage
          || command_eqb c (cmd_remove_from_config name)
          || command_eqb c (cmd_unstage name))
  | ReadText p _ => path_eqb p (path ++ [lit ".gitmodules"])
  | WriteText p _ _ => path_eqb p (path ++ [lit ".gitmodules"])
  | RmTree p =>
      path_eqb p (path ++ [name])
      || path_eqb p (path ++ [lit ".git"; lit "modules"; name])
  | MkDir _ _ | CopyTree _ _ _ _ | Copy2 _ _ _ => false
  end.

(** What is written ends with a newline and holds no line that opens the
    section of [name]. *)
Definition writes_without (name : pystr) (e : event) : bool :=
  match e with
  | WriteText _ s _ =>
      ends_with_newline s
      && forallb (fun l => negb (opens_target name l)) (splitlines s)
  | _ => true
  end.

(** A copy from the entry named by the last component of [s], which is
    not [excl], of [src] to the same name below [dst]. *)
Definition item_copy (src dst : path) (excl : pystr) (s d : path) : bool :=
  let k := last s [] in
  negb (PyStr.eqb k excl) && path_eqb s (src ++ [k]) && path_eqb d (dst ++ [k]).

(** The events [copy_local_repo_to_libs src dst excl] may produce. *)
Definition graft_event (src dst : path) (excl : pystr) (e : event) : bool :=
  match e with
  | Print (CopyingLocal d) => path_eqb d dst
  | MkDir p _ => path_eqb p dst
  | CopyTree s d true _ => item_copy src dst excl s d
  | Copy2 s d _ => item_copy src dst excl s d
  | _ => false
  end.

(** Where [main] runs its commands: the clone without a working
    directory of its own, that is where the script was started; every
    other command with the staging checkout as its working directory. *)
Definition run_in_place (e : event) : bool :=
  match e with
  | Run c cwd _ =>
      if command_eqb c cmd_clone
      then match cwd with None => true | Some _ => false end
      else match cwd with Some d => path_eqb d ci_tmp | None => false end
  | _ => true
  end.

(** The step of [remove_submodule] an event belongs to, in the order of
    the source; prints belong to none. *)
Definition removal_step (path : path) (name : pystr) (e : event) : option nat :=
  match e with
  | Run c _ _ =>
      if command_eqb c (cmd_remove_from_gitmodules (path ++ [lit ".gitmodules"]) name)
      then Some 1
      else if command_eqb c cmd_stage then Some 3
      else if command_eqb c (cmd_remove_from_config name) then Some 4
      else if command_eqb c (cmd_unstage name) then Some 5
      else None
  | ReadText _ _ | WriteText _ _ _ => Some 2
  | RmTree _ => Some 6
  | _ => None
  end.

Fixpoint steps (path : path) (name : pystr) (t : list event) : list nat :=
  match t with
  | [] => []
  | e :: rest =>
      match removal_step path name e with
      | Some n => n :: steps path name rest
      | None => steps path name rest
      end
  end.

Fixpoint ascending (l : list nat) : bool :=
  match l with
  | a :: (b :: _) as rest => (a <=? b) && ascending rest
  | _ => true
  end.

(** The warning [m] speaks of the command [c]. *)
Definition warning_for (path : path) (name : pystr) (m : message) (c : command) : bool :=
  match m with
  | WarnNotInGitmodules n =>
      PyStr.eqb n name
      && command_eqb c (cmd_remove_from_gitmodules (path ++ [lit ".gitmodules"]) name)
  | WarnNotStaged => command_eqb c cmd_stage
  | WarnNotInConfig n => PyStr.eqb n name && command_eqb c (cmd_remove_from_config name)
  | WarnNotUnstaged n => PyStr.eqb n name && command_eqb c (cmd_unstage name)
  | _ => false
  end.

(** Every warning comes right after the non-zero exit of the command it
    speaks of; [prev] is the event before [t]. *)
Fixpoint warnings_justified (path : path) (name : pystr) (prev : option event)
  (t : list event) : bool :=
  match t with
  | [] => true
  | e :: rest =>
      match e with
      | Print m =>
          if is_warning m then
            match prev with
            | Some (Run c _ (Exited rc _)) =>
                negb (rc =? 0)%Z && warning_for path name m c
            | _ => false
            end
          else true
      | _ => true
      end && warnings_justified path name (Some e) rest
  end.

Definition is_removing (e : event) : bool :=
  match e with
  | Print (Removing _ _) => true
  | _ => false
  end.

(** Every event that satisfies [g] comes after one that satisfies [f];
    [seen] says that one came before [t]. *)
Fixpoint guarded (g f : event -> bool) (seen : bool) (t : list event) : bool :=
  match t with
  | [] => true
  | e :: rest => (if g e then seen else true) && guarded g f (seen || f e) rest
  end.

(** ** Facts about Python strings *)

Ltac bool_to_prop :=
  repeat rewrite ?orb_true_iff, ?andb_true_iff, ?N.leb_le, ?N.eqb_eq,
    ?negb_true_iff, ?orb_false_iff, ?andb_false_iff, ?N.leb_gt, ?N.eqb_neq in *.

Section PyStrFacts.

Lemma char_eqb_eq (a b : char) : char_eqb a b = true <-> a = b.
Proof. apply N.eqb_eq. Qed.

Lemma eqb_eq (a b : pystr) : eqb a b = true <-> a = b.
Proof.
  revert b; induction a as [|x a IH]; intros [|y b]; simpl; split;
    try congruence; try reflexivity.
  - intros H. apply andb_true_iff in H as [H1 H2].
    apply char_eqb_eq in H1. apply IH in H2. congruence.
  - intros H. injection H as -> ->. apply andb_true_iff. split.
    + now apply char_eqb_eq.
    + now apply IH.
Qed.

Lemma eqb_refl (a : pystr) : eqb a a = true.
Proof. now apply eqb_eq. Qed.

Lemma linebreak_isspace c : is_linebreak c = true -> isspace c = true.
Proof. unfold is_linebreak, isspace. bool_to_prop. lia. Qed.

Lemma lstrip_head c s : isspace c = false -> lstrip (c :: s) = c :: s.
Proof. intros H; simpl; now rewrite H. Qed.

Lemma rstrip_last s c : isspace c = false -> rstrip (s ++ [c]) = s ++ [c].
Proof.
  intros H. unfold rstrip. rewrite rev_app_distr. simpl. rewrite H.
  simpl. now rewrite rev_involutive.
Qed.

(** A text whose first and last characters are not spaces is its own
    [strip]. *)
Lemma strip_fixed c s d :
  isspace c = false -> isspace d = false -> strip (c :: s ++ [d]) = c :: s ++ [d].
Proof.
  intros Hc Hd. unfold strip. rewrite lstrip_head by assumption.
  change (c :: s ++ [d]) with ((c :: s) ++ [d]). now apply rstrip_last.
Qed.

Lemma startswith_app s t : startswith (s ++ t) s = true.
Proof. induction s; simpl; [reflexivity|]. now rewrite N.eqb_refl. Qed.

Lemma startswith_cons_head s p q :
  startswith s (p :: q) = true -> startswith s [p] = true.
Proof.
  destruct s as [|c s]; simpl; [congruence|]. intros H.
  apply andb_true_iff in H as [H _]. now rewrite H.
Qed.

End PyStrFacts.

(** ** Lines: [splitlines], [join] and the loop *)

Section LineFacts.

Lemma no_linebreak_app a b :
  no_linebreak (a ++ b) = no_linebreak a && no_linebreak b.
Proof. apply forallb_app. Qed.

Lemma no_linebreak_rev a : no_linebreak (rev a) = no_linebreak a.
Proof.
  induction a as [|c a IH]; simpl; [reflexivity|].
  rewrite no_linebreak_app, IH. simpl. rewrite andb_true_r. apply andb_comm.
Qed.

(** Reading one LF-terminated line. *)
Lemma splitlines_from_line l cur rest :
  no_linebreak l = true ->
  splitlines_from cur (l ++ LF :: rest) = (rev cur ++ l) :: splitlines_from [] rest.
Proof.
  revert cur; induction l as [|c l IH]; intros cur H.
  - simpl. rewrite app_nil_r. now destruct rest.
  - simpl in H. apply andb_true_iff in H as [Hc Hl].
    apply negb_true_iff in Hc. simpl. rewrite Hc, IH by assumption.
    simpl. now rewrite <- app_assoc.
Qed.

Lemma splitlines_unlines ls :
  forallb no_linebreak ls = true -> splitlines (unlines ls) = ls.
Proof.
  unfold splitlines, unlines. induction ls as [|l ls IH]; simpl; intros H.
  - reflexivity.
  - apply andb_true_iff in H as [Hl Hls].
    rewrite <- app_assoc. simpl. rewrite splitlines_from_line by assumption.
    simpl. now rewrite IH.
Qed.

(** No line of [splitlines] holds a line boundary. *)
Lemma splitlines_from_no_linebreak n : forall s cur,
  length s <= n -> no_linebreak cur = true ->
  forallb no_linebreak (splitlines_from cur s) = true.
Proof.
  induction n as [|n IH]; intros s cur Hlen Hcur.
  - destruct s; [|simpl in Hlen; lia]. simpl.
    destruct cur; simpl; [reflexivity|].
    change (no_linebreak (rev (c :: cur)) && true = true).
    now rewrite no_linebreak_rev, Hcur.
  - destruct s as [|c rest].
    + simpl. destruct cur; simpl; [reflexivity|].
      change (no_linebreak (rev (c :: cur)) && true = true).
      now rewrite no_linebreak_rev, Hcur.
    + simpl in Hlen. simpl. destruct (is_linebreak c) eqn:Hc.
      * simpl. rewrite no_linebreak_rev, Hcur. simpl.
        destruct rest as [|c' rest'].
        -- reflexivity.
        -- destruct (char_eqb c CR && char_eqb c' LF).
           ++ apply IH; [simpl in Hlen; lia | reflexivity].
           ++ apply IH; [lia | reflexivity].
      * apply IH; [lia|]. simpl. now rewrite Hc, Hcur.
Qed.

Lemma splitlines_no_linebreak s : forallb no_linebreak (splitlines s) = true.
Proof. now apply (splitlines_from_no_linebreak (length s)). Qed.

Lemma join_unlines ls : ls <> [] -> join [LF] ls ++ [LF] = unlines ls.
Proof.
  unfold unlines. induction ls as [|l ls IH]; [congruence|]. intros _.
  destruct ls as [|l' ls].
  - simpl. now rewrite app_nil_r.
  - change (join [LF] (l :: l' :: ls)) with (l ++ [LF] ++ join [LF] (l' :: ls)).
    specialize (IH ltac:(congruence)).
    rewrite <- !app_assoc, IH.
    change (map (fun x => x ++ [LF]) (l :: l' :: ls))
      with ((l ++ [LF]) :: map (fun x => x ++ [LF]) (l' :: ls)).
    rewrite concat_cons, <- app_assoc. reflexivity.
Qed.

(** The loop and its recursive form agree. *)
Lemma fold_loop_scan name lines : forall skip acc,
  snd (fold_left (loop_body name) lines (skip, acc)) = acc ++ scan name skip lines.
Proof.
  induction lines as [|l lines IH]; intros skip acc; simpl.
  - now rewrite app_nil_r.
  - destruct (opens_target name l); [apply IH|].
    destruct (if skip && opens_section l then false else skip); simpl.
    + apply IH.
    + rewrite IH, <- app_assoc. reflexivity.
Qed.

Lemma kept_lines_scan name lines : kept_lines name lines = scan name false lines.
Proof. unfold kept_lines. now rewrite fold_loop_scan. Qed.

Lemma scan_forallb (P : pystr -> bool) name lines : forall skip,
  forallb P lines = true -> forallb P (scan name skip lines) = true.
Proof.
  induction lines as [|l lines IH]; intros skip H; simpl; [reflexivity|].
  simpl in H. apply andb_true_iff in H as [Hl Hls].
  destruct (opens_target name l); [now apply IH|].
  destruct (if skip && opens_section l then false else skip); simpl.
  - now apply IH.
  - now rewrite Hl, IH.
Qed.

(** The loop never keeps a line that opens the target section. *)
Lemma scan_no_target name lines : forall skip,
  forallb (fun l => negb (opens_target name l)) (scan name skip lines) = true.
Proof.
  induction lines as [|l lines IH]; intros skip; simpl; [reflexivity|].
  destruct (opens_target name l) eqn:Ht; [apply IH|].
  destruct (if skip && opens_section l then false else skip); simpl.
  - apply IH.
  - now rewrite Ht, IH.
Qed.

(** Without a target line nothing is skipped. *)
Lemma scan_id name lines :
  forallb (fun l => negb (opens_target name l)) lines = true ->
  scan name false lines = lines.
Proof.
  induction lines as [|l lines IH]; simpl; intros H; [reflexivity|].
  apply andb_true_iff in H as [Hl Hls]. apply negb_true_iff in Hl.
  rewrite Hl. simpl. now rewrite IH.
Qed.

Lemma scan_pre name pre : forall rest,
  forallb (fun l => negb (opens_target name l)) pre = true ->
  scan name false (pre ++ rest) = pre ++ scan name false rest.
Proof.
  induction pre as [|l pre IH]; simpl; intros rest H; [reflexivity|].
  apply andb_true_iff in H as [Hl Hls]. apply negb_true_iff in Hl.
  rewrite Hl. simpl. now rewrite IH.
Qed.

Lemma target_opens_section name l :
  opens_target name l = true -> opens_section l = true.
Proof. unfold opens_target, opens_section. apply startswith_cons_head. Qed.

(** A skip region ends where the next section opens. *)
Lemma scan_skip name rest :
  scan name true rest = scan name false (from_next_section rest).
Proof.
  induction rest as [|l rest IH]; [reflexivity|].
  cbn [from_next_section scan].
  destruct (opens_section l) eqn:Hs.
  - cbn [scan]. rewrite Hs. reflexivity.
  - destruct (opens_target name l) eqn:Ht.
    + apply target_opens_section in Ht. congruence.
    + simpl. exact IH.
Qed.

Lemma new_content_cases name content :
  new_content name content =
  match kept_lines name (splitlines content) with
  | [] => [LF]
  | ls => unlines ls
  end.
Proof.
  unfold new_content. destruct (kept_lines name (splitlines content)) eqn:E.
  - reflexivity.
  - apply join_unlines. congruence.
Qed.

End LineFacts.

(** ** Newlines at the end of the rewritten file *)

Section TrailingNewline.

Lemma no_linebreak_no_cr s : no_linebreak s = true -> no_cr s = true.
Proof.
  unfold no_linebreak, no_cr. induction s as [|c s IH]; simpl; [reflexivity|].
  intros H. apply andb_true_iff in H as [Hc Hs]. rewrite IH by assumption.
  rewrite andb_true_r. unfold is_linebreak, char_eqb, CR in *.
  bool_to_prop. lia.
Qed.

Lemma no_cr_unlines ls : forallb no_linebreak ls = true -> no_cr (unlines ls) = true.
Proof.
  unfold unlines, no_cr. induction ls as [|l ls IH]; simpl; intros H; [reflexivity|].
  apply andb_true_iff in H as [Hl Hls]. rewrite !forallb_app. simpl.
  rewrite IH by assumption. apply no_linebreak_no_cr in Hl.
  unfold no_cr in Hl. now rewrite Hl.
Qed.

Lemma universal_newlines_id n : forall s,
  length s <= n -> no_cr s = true -> universal_newlines s = s.
Proof.
  induction n as [|n IH]; intros [|c s] Hlen H; simpl in *; try reflexivity; try lia.
  apply andb_true_iff in H as [Hc Hs]. apply negb_true_iff in Hc.
  rewrite Hc. f_equal. apply IH; [lia | assumption].
Qed.

Lemma ends_with_newline_snoc s c : ends_with_newline (s ++ [c]) = char_eqb c LF.
Proof. unfold ends_with_newline. now rewrite rev_app_distr. Qed.

Lemma one_trailing_newline_snoc s :
  one_trailing_newline (s ++ [LF]) = negb (ends_with_newline s).
Proof.
  unfold one_trailing_newline, ends_with_newline. rewrite rev_app_distr. simpl.
  now destruct (rev s).
Qed.

Lemma ends_with_newline_app a b :
  b <> [] -> ends_with_newline (a ++ b) = ends_with_newline b.
Proof.
  intros H. destruct (exists_last H) as (b' & c & ->).
  now rewrite app_assoc, !ends_with_newline_snoc.
Qed.

Lemma no_linebreak_not_newline l : no_linebreak l = true -> ends_with_newline l = false.
Proof.
  intros H. destruct l as [|c l]; [reflexivity|].
  destruct (@exists_last _ (c :: l)) as (l' & d & E); [congruence|].
  rewrite E in *. rewrite ends_with_newline_snoc.
  rewrite no_linebreak_app in H. apply andb_true_iff in H as [_ H].
  simpl in H. rewrite andb_true_r in H. unfold is_linebreak, char_eqb, LF in *.
  destruct (d =? 10)%N eqn:E'; [|reflexivity].
  apply N.eqb_eq in E'. subst d. discriminate H.
Qed.

Lemma join_snoc sep ls l :
  ls <> [] -> join sep (ls ++ [l]) = join sep ls ++ sep ++ l.
Proof.
  induction ls as [|a ls IH]; [congruence|]. intros _.
  destruct ls as [|b ls].
  - reflexivity.
  - change (join sep ((a :: b :: ls) ++ [l]))
      with (a ++ sep ++ join sep ((b :: ls) ++ [l])).
    rewrite IH by congruence.
    change (join sep (a :: b :: ls)) with (a ++ sep ++ join sep (b :: ls)).
    now rewrite <- !app_assoc.
Qed.

(** The joined lines end with a newline exactly when at least two lines
    are joined and the last one is empty. *)
Lemma join_ends_with_newline ls :
  forallb no_linebreak ls = true ->
  ends_with_newline (join [LF] ls) = blank_tail ls.
Proof.
  intros H. destruct ls as [|a ls]; [reflexivity|].
  destruct (@exists_last _ (a :: ls)) as (ls' & l & E); [congruence|].
  rewrite E in *. rewrite forallb_app in H. apply andb_true_iff in H as [_ H].
  simpl in H. rewrite andb_true_r in H.
  unfold blank_tail. rewrite rev_app_distr. simpl.
  destruct ls' as [|b ls'].
  - simpl. rewrite no_linebreak_not_newline by assumption. now destruct l.
  - rewrite join_snoc by congruence.
    destruct l as [|c l].
    + rewrite app_nil_r, ends_with_newline_snoc. simpl.
      destruct (rev ls' ++ [b]) eqn:E'; [|reflexivity].
      now destruct (rev ls').
    + rewrite app_assoc, ends_with_newline_app by congruence.
      now apply no_linebreak_not_newline.
Qed.

End TrailingNewline.

(** ** The skip region *)

(** C5. In the text fallback, skipping begins at a line that opens the
    target section ([[submodule "<name>"]] once the line is stripped) and
    ends at, and excludes, the next line that starts with [[] (stripped
    likewise), whatever that line is: the lines before the region are
    kept, the lines of the region are dropped, and the scan resumes at the
    boundary line. A boundary line that does not open the target itself is
    kept, followed by what the scan keeps of the lines after it, which is
    all of them when none opens the target; a boundary line that opens the
    target is dropped and starts the next region. When no line starting
    with [[] follows, everything up to the end of the file is skipped. *)
Theorem skip_region_boundary (name : pystr) (pre : list pystr) (l : pystr) :
  Forall (fun x => opens_target name x = false) pre ->
  opens_target name l = true ->
  (forall body h tail,
      Forall (fun x => opens_section x = false) body ->
      opens_section h = true ->
      kept_lines name (pre ++ l :: body ++ h :: tail)
      = pre ++ kept_lines name (h :: tail)
      /\ (opens_target name h = false ->
          kept_lines name (pre ++ l :: body ++ h :: tail)
          = pre ++ h :: kept_lines name tail)
      /\ (opens_target name h = false ->
          Forall (fun x => opens_target name x = false) tail ->
          kept_lines name (pre ++ l :: body ++ h :: tail) = pre ++ h :: tail)
      /\ (opens_target name h = true ->
          kept_lines name (pre ++ l :: body ++ h :: tail)
          = kept_lines name (pre ++ h :: tail)))
  /\ (forall body,
      Forall (fun x => opens_section x = false) body ->
      kept_lines name (pre ++ l :: body) = pre).
Proof.
  intros Hpre Hl.
  assert (Hpre' : forallb (fun x => negb (opens_target name x)) pre = true).
  { apply forallb_forall. intros x Hx. rewrite Forall_forall in Hpre.
    now rewrite (Hpre x Hx). }
  assert (Hdrop : forall body rest,
             Forall (fun x => opens_section x = false) body ->
             from_next_section (body ++ rest) = from_next_section rest).
  { induction body as [|b body IH]; intros rest Hb; [reflexivity|].
    inversion Hb; subst. simpl. rewrite H1. now apply IH. }
  assert (Hregion : forall body h tail,
             Forall (fun x => opens_section x = false) body ->
             opens_section h = true ->
             kept_lines name (pre ++ l :: body ++ h :: tail)
             = pre ++ kept_lines name (h :: tail)).
  { intros body h tail Hbody Hh.
    rewrite !kept_lines_scan, scan_pre by assumption.
    cbn [scan]. rewrite Hl, scan_skip, Hdrop by assumption.
    cbn [from_next_section]. now rewrite Hh. }
  split.
  - intros body h tail Hbody Hh.
    rewrite (Hregion body h tail Hbody Hh).
    split; [reflexivity|]. split; [|split].
    + intros Hnt. rewrite !kept_lines_scan. cbn [scan]. now rewrite Hnt.
    + intros Hnt Htail. rewrite kept_lines_scan. cbn [scan]. rewrite Hnt.
      cbn [andb negb]. rewrite scan_id; [reflexivity|].
      apply forallb_forall. intros x Hx. rewrite Forall_forall in Htail.
      now rewrite (Htail x Hx).
    + intros _. now rewrite !kept_lines_scan, scan_pre by assumption.
  - intros body Hbody.
    rewrite kept_lines_scan, scan_pre by assumption.
    cbn [scan]. rewrite Hl, scan_skip.
    rewrite <- (app_nil_r body), Hdrop by assumption.
    simpl. now rewrite app_nil_r.
Qed.

(** The skip region at work on a registry whose target section is followed
    by a nested-looking header: the header and the line after it are
    kept. *)
Lemma skip_region_boundary_witness :
  kept_lines libs
    ([lit "[core]"] ++ (lit "  " ++ section_header libs)
       :: [lit "path = libs"; []] ++ lit " [[nested" :: [lit "x = 1"])
  = [lit "[core]"; lit " [[nested"; lit "x = 1"]
  /\ kept_lines libs
       ([lit "[core]"] ++ (lit "  " ++ section_header libs)
          :: [lit "path = libs"; []])
     = [lit "[core]"].
Proof.
  assert (Hpre : Forall (fun x => opens_target libs x = false) [lit "[core]"]).
  { repeat constructor. }
  assert (Hl : opens_target libs (lit "  " ++ section_header libs) = true).
  { reflexivity. }
  assert (Hbody : Forall (fun x => opens_section x = false) [lit "path = libs"; []]).
  { repeat constructor. }
  assert (Htail : Forall (fun x => opens_target libs x = false) [lit "x = 1"]).
  { repeat constructor. }
  destruct (skip_region_boundary libs _ _ Hpre Hl) as [H1 H2].
  split.
  - destruct (H1 [lit "path = libs"; []] (lit " [[nested") [lit "x = 1"] Hbody eq_refl)
      as (_ & _ & Hkept & _).
    exact (Hkept eq_refl Htail).
  - apply (H2 [lit "path = libs"; []] Hbody).
Defined.

(** ** Idempotence *)

(** C6. The text fallback is idempotent: run on the file it has written,
    it finds no line opening the target section and writes the same
    content again. *)
Theorem fallback_idempotent (name stored : pystr) :
  forallb (fun l => negb (opens_target name l))
    (splitlines (universal_newlines (rewrite_file name stored))) = true
  /\ rewrite_file name (rewrite_file name stored) = rewrite_file name stored.
Proof.
  unfold rewrite_file. set (content := universal_newlines stored).
  rewrite (new_content_cases name content).
  pose proof (splitlines_no_linebreak content) as Hnl.
  pose proof (scan_no_target name (splitlines content) false) as Hnt.
  pose proof (scan_forallb no_linebreak name (splitlines content) false Hnl) as Hk.
  rewrite <- kept_lines_scan in Hnt, Hk.
  destruct (kept_lines name (splitlines content)) as [|k ks] eqn:E.
  - split; reflexivity.
  - rewrite (universal_newlines_id (length (unlines (k :: ks))))
      by (auto using no_cr_unlines).
    rewrite new_content_cases, splitlines_unlines by assumption.
    split; [assumption|].
    rewrite kept_lines_scan, scan_id by assumption. reflexivity.
Qed.

(** ** The trailing newline *)

(** C9, as the code has it. Whatever the input, the rewritten content is
    the kept lines joined by newlines with one newline appended: it always
    ends with a newline, and with exactly one unless at least two lines
    are kept and the last of them is empty. *)
Theorem rewritten_file_trailing_newline (name content : pystr) :
  ends_with_newline (new_content name content) = true
  /\ one_trailing_newline (new_content name content)
     = negb (blank_tail (kept_lines name (splitlines content))).
Proof.
  unfold new_content. split.
  - apply ends_with_newline_snoc.
  - rewrite one_trailing_newline_snoc, join_ends_with_newline; [reflexivity|].
    rewrite kept_lines_scan. apply scan_forallb, splitlines_no_linebreak.
Qed.

(** C9 as stated fails: a file that ends with an empty line is written
    back with that empty line, hence with two newlines at its end. *)
Lemma trailing_blank_line_survives :
  new_content libs (lit "[core]" ++ [LF] ++ lit "x = 1" ++ [LF; LF])
  = lit "[core]" ++ [LF] ++ lit "x = 1" ++ [LF; LF]
  /\ one_trailing_newline
       (new_content libs (lit "[core]" ++ [LF] ++ lit "x = 1" ++ [LF; LF])) = false.
Proof. split; reflexivity. Qed.

(** ** Removal of the target section from a well-formed registry *)

Section WellFormed.

Variable name : pystr.

Lemma section_header_shape n :
  section_header n
  = LBRACKET :: (lit "submodule " ++ [QUOTE] ++ n ++ [QUOTE]) ++ [RBRACKET].
Proof. unfold section_header. simpl. now rewrite <- !app_assoc. Qed.

Lemma strip_section_header n : strip (section_header n) = section_header n.
Proof. rewrite section_header_shape. now apply strip_fixed. Qed.

Lemma opens_section_header n : opens_section (section_header n) = true.
Proof.
  unfold opens_section. rewrite strip_section_header, section_header_shape.
  reflexivity.
Qed.

Lemma startswith_closing n : forall m,
  forallb (fun c => negb (char_eqb c QUOTE)) m = true ->
  startswith (m ++ [QUOTE; RBRACKET]) (n ++ [QUOTE; RBRACKET]) = eqb m n.
Proof.
  induction n as [|a n IH]; intros [|c m] H.
  - reflexivity.
  - simpl in H. apply andb_true_iff in H as [Hc _].
    apply negb_true_iff in Hc. simpl. now rewrite Hc.
  - cbn [app startswith eqb]. destruct (char_eqb QUOTE a); [|reflexivity].
    destruct n as [|b n]; [reflexivity|]. cbn [app startswith andb].
    destruct (char_eqb RBRACKET b); [|reflexivity].
    now destruct n.
  - simpl in H. apply andb_true_iff in H as [_ Hm].
    simpl. now rewrite IH.
Qed.

Lemma wf_name_quote_free n :
  wf_name n = true -> forallb (fun c => negb (char_eqb c QUOTE)) n = true.
Proof.
  unfold wf_name. induction n as [|c n IH]; simpl; [reflexivity|].
  intros H. apply andb_true_iff in H as [Hc Hn].
  apply andb_true_iff in Hc as [_ Hc]. now rewrite Hc, IH.
Qed.

(** A header opens the target section exactly when it bears its name. *)
Lemma opens_target_header n :
  wf_name n = true -> opens_target name (section_header n) = eqb n name.
Proof.
  intros H. unfold opens_target. rewrite strip_section_header.
  unfold section_header. simpl.
  apply startswith_closing. now apply wf_name_quote_free.
Qed.

Lemma no_linebreak_header n : wf_name n = true -> no_linebreak (section_header n) = true.
Proof.
  intros H. unfold section_header. rewrite !no_linebreak_app.
  assert (Hn : no_linebreak n = true).
  { unfold wf_name, no_linebreak in *. induction n as [|c m IH]; simpl in *; [reflexivity|].
    apply andb_true_iff in H as [Hc Hm]. apply andb_true_iff in Hc as [Hc _].
    now rewrite Hc, IH. }
  now rewrite Hn.
Qed.

Lemma wf_entries_no_target es :
  forallb wf_entry es = true ->
  forallb (fun l => negb (opens_target name l)) es = true.
Proof.
  induction es as [|e es IH]; simpl; intros H; [reflexivity|].
  apply andb_true_iff in H as [He Hes]. rewrite IH by assumption.
  unfold wf_entry in He. apply andb_true_iff in He as [_ He].
  apply negb_true_iff in He.
  destruct (opens_target name e) eqn:E; [|reflexivity].
  apply target_opens_section in E. congruence.
Qed.

Lemma scan_entries_skipped es : forall rest,
  forallb wf_entry es = true ->
  scan name true (es ++ rest) = scan name true rest.
Proof.
  induction es as [|e es IH]; simpl; intros rest H; [reflexivity|].
  apply andb_true_iff in H as [He Hes].
  pose proof He as He'. unfold wf_entry in He'.
  apply andb_true_iff in He' as [_ He']. apply negb_true_iff in He'.
  destruct (opens_target name e) eqn:E.
  - apply target_opens_section in E. congruence.
  - rewrite He'. simpl. now apply IH.
Qed.

(** On a well-formed registry the loop keeps the lines of every section
    but those called [name], whatever the flag on entry. *)
Lemma scan_render cfg : forall skip,
  well_formed cfg = true ->
  scan name skip (flat_map render_section cfg)
  = flat_map render_section (without name cfg).
Proof.
  induction cfg as [|s cfg IH]; intros skip H; [reflexivity|].
  simpl in H. apply andb_true_iff in H as [Hs Hcfg].
  unfold wf_section in Hs. apply andb_true_iff in Hs as [Hn Hes].
  change (without name (s :: cfg))
    with (if negb (eqb (sec_name s) name) then s :: without name cfg
          else without name cfg).
  change (flat_map render_section (s :: cfg))
    with (section_header (sec_name s)
            :: sec_entries s ++ flat_map render_section cfg).
  cbn [scan]. rewrite opens_target_header by assumption.
  destruct (eqb (sec_name s) name) eqn:E; cbn [negb].
  - rewrite scan_entries_skipped by assumption. now apply IH.
  - rewrite opens_section_header.
    replace (if skip && true then false else skip) with false by now destruct skip.
    cbn [negb].
    change (flat_map render_section (s :: without name cfg))
      with (section_header (sec_name s)
              :: sec_entries s ++ flat_map render_section (without name cfg)).
    f_equal.
    rewrite scan_pre by now apply wf_entries_no_target.
    f_equal. now apply IH.
Qed.

Lemma render_lines_no_linebreak cfg :
  well_formed cfg = true ->
  forallb no_linebreak (flat_map render_section cfg) = true.
Proof.
  induction cfg as [|s cfg IH]; intros H; [reflexivity|].
  simpl in H. apply andb_true_iff in H as [Hs Hcfg].
  unfold wf_section in Hs. apply andb_true_iff in Hs as [Hn Hes].
  change (flat_map render_section (s :: cfg))
    with (section_header (sec_name s)
            :: sec_entries s ++ flat_map render_section cfg).
  cbn [forallb]. rewrite no_linebreak_header by assumption. cbn [andb].
  rewrite forallb_app, IH by assumption. rewrite andb_true_r.
  clear -Hes. induction (sec_entries s) as [|e es IH]; simpl in *; [reflexivity|].
  apply andb_true_iff in Hes as [He Hes]. unfold wf_entry in He.
  apply andb_true_iff in He as [He _]. now rewrite He, IH.
Qed.

Lemma without_absent cfg : occurrences name cfg = 0 -> without name cfg = cfg.
Proof.
  unfold occurrences, without. induction cfg as [|s cfg IH]; simpl; [reflexivity|].
  destruct (eqb (sec_name s) name); simpl; [discriminate|].
  intros H. now rewrite IH.
Qed.

Lemma without_one before s after :
  sec_name s = name -> occurrences name (before ++ after) = 0 ->
  without name (before ++ s :: after) = before ++ after.
Proof.
  intros Hs H. pose proof (without_absent _ H) as E.
  unfold without in *. rewrite filter_app in *. simpl.
  now rewrite Hs, eqb_refl.
Qed.

Lemma blank_tail_render cfg :
  blank_tail (flat_map render_section cfg) = ends_with_blank_line cfg.
Proof.
  unfold blank_tail, ends_with_blank_line. destruct cfg as [|s cfg]; [reflexivity|].
  cbn [flat_map render_section app].
  set (tl := sec_entries s ++ flat_map render_section cfg).
  cbn [rev]. destruct (rev tl) as [|x y].
  - reflexivity.
  - simpl. destruct x; [|reflexivity]. now destruct y.
Qed.

(** What the fallback writes for a well-formed registry. *)
Lemma rewrite_render cfg :
  well_formed cfg = true ->
  rewrite_file name (render cfg)
  = join [LF] (flat_map render_section (without name cfg)) ++ [LF].
Proof.
  intros H. unfold rewrite_file, render.
  pose proof (render_lines_no_linebreak cfg H) as Hnl.
  rewrite (universal_newlines_id (length (unlines (flat_map render_section cfg))))
    by auto using no_cr_unlines.
  unfold new_content.
  now rewrite splitlines_unlines, kept_lines_scan, scan_render.
Qed.

End WellFormed.

(** C1, as the code has it. For a well-formed registry in which exactly
    one section bears the target name, the text fallback writes the
    original with that section's block taken out and every other section
    as it was; when no other section is left it writes a single newline,
    not an empty file. The result ends with exactly one newline unless the
    remaining registry ends with an empty line. *)
Theorem fallback_removes_target_section
  (name : pystr) (before : list section) (s : section) (after : list section) :
  well_formed (before ++ s :: after) = true ->
  sec_name s = name ->
  occurrences name (before ++ after) = 0 ->
  rewrite_file name (render (before ++ s :: after))
  = match before ++ after with
    | [] => [LF]
    | rest => render rest
    end
  /\ one_trailing_newline (rewrite_file name (render (before ++ s :: after)))
     = negb (ends_with_blank_line (before ++ after)).
Proof.
  intros Hwf Hs Hocc.
  rewrite (rewrite_render name _ Hwf), (without_one name before s after Hs Hocc).
  assert (Hwf' : well_formed (before ++ after) = true).
  { unfold well_formed in *. rewrite forallb_app in *. simpl in Hwf.
    apply andb_true_iff in Hwf as [H1 H2]. apply andb_true_iff in H2 as [_ H2].
    now rewrite H1, H2. }
  split.
  - destruct (before ++ after) as [|r rest] eqn:E; [reflexivity|].
    unfold render. apply join_unlines. simpl. congruence.
  - rewrite one_trailing_newline_snoc, join_ends_with_newline
      by now apply render_lines_no_linebreak.
    now rewrite blank_tail_render.
Qed.

Lemma fallback_removes_target_section_witness :
  rewrite_file libs (render [other_section; libs_section; spaced_section; other_section])
  = render [other_section; spaced_section; other_section]
  /\ one_trailing_newline
       (rewrite_file libs (render [other_section; libs_section; spaced_section; other_section]))
     = true.
Proof.
  exact (fallback_removes_target_section libs
           [other_section] libs_section [spaced_section; other_section]
           eq_refl eq_refl eq_refl).
Defined.

(** C1 as stated fails on a well-formed registry: with the target section
    last and an empty line before it, the block is removed and the rest
    kept byte for byte, but the file then ends with two newlines; and a
    registry holding the target section alone is written back as one
    newline, not as the empty rest. *)
Lemma fallback_not_one_trailing_newline :
  well_formed [spaced_section; libs_section] = true
  /\ occurrences libs [spaced_section; libs_section] = 1
  /\ rewrite_file libs (render [spaced_section; libs_section]) = render [spaced_section]
  /\ one_trailing_newline (rewrite_file libs (render [spaced_section; libs_section])) = false
  /\ well_formed [libs_section] = true
  /\ rewrite_file libs (render [libs_section]) = [LF]
  /\ render (without libs [libs_section]) = [].
Proof. repeat split; reflexivity. Qed.

(** ** Submodule removal *)

Ltac script_simpl :=
  cbn -[command_eqb path_eqb new_content remove_submodule copy_local_repo_to_libs].

Ltac os_step :=
  match goal with
  | |- context [subprocess_run ?o ?c ?d ?w] =>
      let r := fresh "r" in let w' := fresh "w" in
      destruct (subprocess_run o c d w) as [r w'] eqn:?;
      destruct r as [? ?|]
  | |- context [path_exists ?o ?p ?w] => destruct (path_exists o p w) eqn:?
  | |- context [path_read_text ?o ?p ?w] => destruct (path_read_text o p w) eqn:?
  | |- context [path_write_text ?o ?p ?s ?w] =>
      let r := fresh "r" in let w' := fresh "w" in
      destruct (path_write_text o p s w) as [r w'] eqn:?; destruct r
  | |- context [(?rc =? 0)%Z] => destruct (rc =? 0)%Z eqn:?
  end; script_simpl.

Ltac unfold_script :=
  cbv [remove_submodule bind try_except run print exists_ read_text write_text
       rmtree ret raise subprocess_run_check lift_res is_ok].


Section Removal.

Context {W : Type} (os : OS W).

Lemma path_eqb_refl p : path_eqb p p = true.
Proof.
  unfold path_eqb. rewrite Nat.eqb_refl. simpl.
  induction p as [|c p IH]; simpl; [reflexivity|]. now rewrite eqb_refl.
Qed.

Lemma arg_eqb_refl a : arg_eqb a a = true.
Proof. destruct a; simpl; [apply eqb_refl | apply path_eqb_refl]. Qed.

Lemma command_eqb_refl c : command_eqb c c = true.
Proof.
  unfold command_eqb. rewrite Nat.eqb_refl. simpl.
  induction c as [|a c IH]; simpl; [reflexivity|]. now rewrite arg_eqb_refl.
Qed.

(** The facts about one removal that the claims below share. *)
Lemma remove_submodule_facts (path : path) (name : pystr) (w : W) :
  let x := remove_submodule os path name w in
  (forall rc, result x <> Raise (CalledProcessError rc))
  /\ failures_warned (trace x) = true
  /\ (existsb library_error (trace x) = false ->
      result x = Return tt
      /\ existsb (ran (cmd_remove_from_config name)) (trace x) = true
      /\ existsb (ran (cmd_unstage name)) (trace x) = true)
  /\ existsb (ran cmd_stage) (trace x)
     = existsb (ran_ok (cmd_remove_from_gitmodules (path ++ [lit ".gitmodules"]) name))
         (trace x)
       || existsb (wrote (path ++ [lit ".gitmodules"])) (trace x)
  /\ forallb (fun e => negb (is_graft e) && negb (is_backup_copy e)
                       && match e with Run c _ _ => negb (is_fatal c) | _ => true end)
       (trace x) = true
  /\ exists rest, trace x = Print (Removing name path) :: rest.
Proof.
  unfold_script. script_simpl.
  repeat os_step.
  all: rewrite ?command_eqb_refl, ?path_eqb_refl.
  all: repeat split; try congruence; try reflexivity; try discriminate.
  all: eexists; reflexivity.
Qed.

End Removal.

(** C7. Inside submodule removal every command that exits non-zero
    (section missing from .gitmodules or from .git/config, path not in the
    index) is caught and followed at once by a printed warning; an absent
    directory or metadata directory is simply passed over. No
    [CalledProcessError] reaches the caller, and unless a library call
    itself raises, the removal runs to its end and returns, having issued
    the later commands whatever the earlier ones answered. *)
Theorem removal_failures_tolerated {W : Type} (os : OS W)
  (path : path) (name : pystr) (w : W) :
  (forall rc, result (remove_submodule os path name w) <> Raise (CalledProcessError rc))
  /\ failures_warned (trace (remove_submodule os path name w)) = true
  /\ (existsb library_error (trace (remove_submodule os path name w)) = false ->
      result (remove_submodule os path name w) = Return tt
      /\ existsb (ran (cmd_remove_from_config name))
           (trace (remove_submodule os path name w)) = true
      /\ existsb (ran (cmd_unstage name))
           (trace (remove_submodule os path name w)) = true).
Proof.
  pose proof (remove_submodule_facts os path name w) as (H1 & H2 & H3 & _).
  auto.
Qed.

(** C8. The registry file is staged (the command [git add .gitmodules]
    is issued) if and only if it was rewritten by the structured removal
    (the [git config -f] command exited with 0) or by the text fallback
    (its [write_text] went through). *)
Theorem staged_iff_modified {W : Type} (os : OS W)
  (path : path) (name : pystr) (w : W) :
  existsb (ran cmd_stage) (trace (remove_submodule os path name w)) = true
  <-> (existsb (ran_ok (cmd_remove_from_gitmodules (path ++ [lit ".gitmodules"]) name))
         (trace (remove_submodule os path name w)) = true
       \/ existsb (wrote (path ++ [lit ".gitmodules"]))
            (trace (remove_submodule os path name w)) = true).
Proof.
  pose proof (remove_submodule_facts os path name w) as (_ & _ & _ & H & _).
  rewrite H. apply orb_true_iff.
Qed.


(** ** The workflow *)

Section Workflow.

Context {W : Type} (os : OS W).

Lemma count_app f (a b : list event) : count f (a ++ b) = count f a + count f b.
Proof. unfold count. now rewrite filter_app, length_app. Qed.

Lemma forallb_existsb_false (P f : event -> bool) t :
  (forall e, P e = true -> f e = false) ->
  forallb P t = true -> existsb f t = false.
Proof.
  intros Hpf. induction t as [|e t IH]; simpl; [reflexivity|].
  intros H. apply andb_true_iff in H as [He Ht].
  now rewrite (Hpf e He), IH.
Qed.

Lemma existsb_false_count f (t : list event) : existsb f t = false -> count f t = 0.
Proof.
  unfold count. induction t as [|e t IH]; simpl; [reflexivity|].
  intros H. apply orb_false_iff in H as [He Ht]. now rewrite He, IH.
Qed.

Lemma confined_bind P {A B} (m : @M W A) (k : A -> @M W B) :
  confined P m -> (forall a, confined P (k a)) -> confined P (bind m k).
Proof.
  intros Hm Hk w. unfold bind. specialize (Hm w).
  destruct (m w) as [[[a|e] w1] t1]; cbn [trace result fst snd] in *.
  - specialize (Hk a w1). destruct (k a w1) as [[r w2] t2].
    cbn [trace result fst snd] in *. rewrite forallb_app.
    destruct Hm as [-> _], Hk as [-> Hk]. auto.
  - destruct Hm as [Ht Hr]. split; [exact Ht|].
    intros rc E. apply (Hr rc). congruence.
Qed.

Lemma confined_ret P {A} (a : A) : confined P (@ret W A a).
Proof. intros w. split; [reflexivity | discriminate]. Qed.

Lemma confined_for_each P {A} (xs : list A) (body : A -> @M W unit) :
  (forall x, confined P (body x)) -> confined P (for_each xs body).
Proof.
  intros H. induction xs as [|x xs IH]; cbn [for_each].
  - apply confined_ret.
  - apply confined_bind; auto.
Qed.

Lemma copy_local_confined (src dst : path) (excl : pystr) :
  confined copy_only (copy_local_repo_to_libs os src dst excl).
Proof.
  unfold copy_local_repo_to_libs.
  apply confined_bind; [intros w; split; [reflexivity | discriminate]|]. intros _.
  apply confined_bind.
  { intros w. unfold mkdir. destruct (path_mkdir os dst w) as [[[]|] w1];
      split; try reflexivity; discriminate. }
  intros _. apply confined_bind.
  { intros w. unfold iterdir. destruct (path_iterdir os src w);
      split; try reflexivity; discriminate. }
  intros items. apply confined_for_each. intros k.
  destruct (PyStr.eqb k excl); [apply confined_ret|].
  apply confined_bind; [intros w; split; [reflexivity | discriminate]|].
  intros [|].
  - intros w. unfold copytree.
    destruct (shutil_copytree os _ _ true w) as [[[]|] w1];
      split; try reflexivity; discriminate.
  - intros w. unfold copy2.
    destruct (shutil_copy2 os _ _ w) as [[[]|] w1];
      split; try reflexivity; discriminate.
Qed.


Lemma removal_quiet (path : path) (name : pystr) (w : W) :
  let x := remove_submodule os path name w in
  (forall rc, existsb (fatal_failure rc) (trace x) = false)
  /\ existsb is_graft (trace x) = false
  /\ count is_clone (trace x) = 0
  /\ count is_backup_copy (trace x) = 0
  /\ (exists rest, trace x = Print (Removing name path) :: rest)
  /\ (forall rc, result x <> Raise (CalledProcessError rc)).
Proof.
  pose proof (remove_submodule_facts os path name w) as (H1 & _ & _ & _ & H5 & H6).
  cbn zeta. repeat split; try assumption.
  - intros rc. revert H5. apply forallb_existsb_false.
    intros [m|c cwd [rc' out|]| | | | | |] H; try reflexivity. simpl in *.
    destruct (is_fatal c); [discriminate H | reflexivity].
  - revert H5. apply forallb_existsb_false. intros e H.
    apply andb_true_iff in H as [H _]. apply andb_true_iff in H as [H _].
    now apply negb_true_iff in H.
  - apply existsb_false_count. revert H5. apply forallb_existsb_false.
    intros [m|c cwd r| | | | | |] H; try reflexivity. simpl in *.
    unfold is_fatal in H. destruct (command_eqb c cmd_clone); [discriminate H | reflexivity].
  - apply existsb_false_count. revert H5. apply forallb_existsb_false. intros e H.
    apply andb_true_iff in H as [H _]. apply andb_true_iff in H as [_ H].
    now apply negb_true_iff in H.
Qed.

Lemma copy_quiet (src dst : path) (excl : pystr) (w : W) :
  let x := copy_local_repo_to_libs os src dst excl w in
  (forall rc, existsb (fatal_failure rc) (trace x) = false)
  /\ count is_clone (trace x) = 0
  /\ count is_backup_copy (trace x) = 0
  /\ (forall rc, result x <> Raise (CalledProcessError rc)).
Proof.
  destruct (copy_local_confined src dst excl w) as [H1 H2].
  cbn zeta. repeat split; try assumption.
  - intros rc. revert H1. apply forallb_existsb_false.
    now intros [m|c cwd r| | | | | |].
  - apply existsb_false_count. revert H1. apply forallb_existsb_false.
    now intros [m|c cwd r| | | | | |].
  - apply existsb_false_count. revert H1. apply forallb_existsb_false.
    now intros [m|c cwd r| | | |src' dst' [|] ok| |].
Qed.


Ltac black_box :=
  match goal with
  | |- context [remove_submodule ?o ?p ?n ?w] =>
      let r := fresh "r" in let w' := fresh "w" in let t := fresh "t" in
      let Hr := fresh "Hr" in
      generalize (removal_quiet p n w); cbv zeta;
      destruct (remove_submodule o p n w) as [[r w'] t];
      cbn [result trace fst snd];
      intros (?Hf & ?Hg & ?Hc & ?Hb & ?Hhd & Hr);
      destruct r as [[]|[?rc|]]; [| exfalso; eapply Hr; reflexivity |]
  | |- context [copy_local_repo_to_libs ?o ?s ?d ?x ?w] =>
      let r := fresh "r" in let w' := fresh "w" in let t := fresh "t" in
      let Hr := fresh "Hr" in
      generalize (copy_quiet s d x w); cbv zeta;
      destruct (copy_local_repo_to_libs o s d x w) as [[r w'] t];
      cbn [result trace fst snd];
      intros (?Hf & ?Hc & ?Hb & Hr);
      destruct r as [[]|[?rc|]]; [| exfalso; eapply Hr; reflexivity |]
  | |- context [shutil_copytree ?o ?a ?b ?c ?w] =>
      let r := fresh "r" in let w' := fresh "w" in
      destruct (shutil_copytree o a b c w) as [r w'] eqn:?; destruct r as [[]|]
  end; script_simpl.

Ltac z_bool :=
  repeat match goal with
    | H : (_ =? _)%Z = true |- _ => apply Z.eqb_eq in H
    | H : (_ =? _)%Z = false |- _ => apply Z.eqb_neq in H
    | H : _ && _ = true |- _ => apply andb_true_iff in H; destruct H
    | H : _ || _ = true |- _ => apply orb_true_iff in H; destruct H
    | H : negb _ = true |- _ => apply negb_true_iff in H
    | H : false = true |- _ => discriminate H
    | H : true = false |- _ => discriminate H
    end.

Lemma count_cons f e (t : list event) :
  count f (e :: t) = (if f e then 1 else 0) + count f t.
Proof. unfold count. simpl. now destruct (f e). Qed.

Ltac count_facts :=
  repeat match goal with
    | |- context [Datatypes.length (filter ?f ?t)] =>
        change (Datatypes.length (filter f t)) with (count f t)
    end;
  rewrite ?count_app, ?count_cons;
  repeat match goal with
    | H : count _ ?t = 0 |- _ => rewrite ?H; clear H
    end;
  reflexivity.

Ltac head_facts :=
  repeat match goal with
    | H : (_ =? 0)%Z = _ |- _ => rewrite ?H; clear H
    | H : exists rest, _ = Print _ :: rest |- _ => destruct H as [? ->]
    end;
  first [ reflexivity | eexists; reflexivity ].

Ltac counts_then_head :=
  split; [count_facts | split; [count_facts | head_facts]].

Ltac shape_facts :=
  do 2 eexists; split; [reflexivity | counts_then_head].

Ltac trace_facts :=
  repeat match goal with
    | H : forall rc : Z, existsb (fatal_failure rc) ?t = false |- _ =>
        rewrite ?existsb_app, ?H in *; revert H
    end; intros;
  rewrite ?existsb_app, ?count_app in *;
  repeat match goal with
    | H : existsb is_graft ?t = false |- _ => rewrite ?H in *; clear H
    | H : count _ ?t = 0 |- _ => rewrite ?H in *; clear H
    end.

Lemma main_facts (w : W) :
  let x := main os w in
  (forall rc, existsb (fatal_failure rc) (trace x) = true ->
     result x = Raise (CalledProcessError rc) /\ existsb is_graft (trace x) = false)
  /\ (forall rc, result x = Raise (CalledProcessError rc) -> rc <> 0%Z)
  /\ (path_exists os ci_tmp w = false -> path_exists os ci_tmp_bk w = false ->
      exists r rest,
        trace x = Print Cloning :: Print (Echo cmd_clone) :: Run cmd_clone None r :: rest
        /\ count is_clone rest = 0 /\ count is_backup_copy rest = 0
        /\ match r with
           | Exited rc _ =>
               if (rc =? 0)%Z
               then exists rest', rest = Print (Removing (lit "libs") ci_tmp) :: rest'
               else rest = []
           | NotStarted => rest = []
           end)
  /\ (path_exists os ci_tmp w = false -> path_exists os ci_tmp_bk w = true ->
      exists ok rest,
        trace x = Print CopyingBackup :: CopyTree ci_tmp_bk ci_tmp false ok :: rest
        /\ count is_clone rest = 0 /\ count is_backup_copy rest = 0
        /\ if ok
           then exists rest', rest = Print (Removing (lit "libs") ci_tmp) :: rest'
           else rest = [])
  /\ (path_exists os ci_tmp w = true ->
      count is_clone (trace x) = 0 /\ count is_backup_copy (trace x) = 0
      /\ exists rest', trace x = Print (Removing (lit "libs") ci_tmp) :: rest').
Proof.
  cbv [main bind try_except run print exists_ copytree
       ret raise subprocess_run_check lift_res is_ok].
  script_simpl.
  repeat first [os_step | black_box].
  all: cbn [result trace fst snd].
  all: split; [intros ? Hex; trace_facts; cbn in Hex; z_bool; subst;
               trace_facts; z_bool;
               first [ congruence | lia | split; [reflexivity | trace_facts; reflexivity] ] |].
  all: split; [intros ? E; z_bool; congruence |].
  all: split; [intros ? ?; first [discriminate | shape_facts] |].
  all: split; [intros ? ?; first [discriminate | shape_facts] |].
  all: intros ?; first [discriminate | counts_then_head].
Qed.

End Workflow.

(** C3. When a command whose failure the script does not handle (the
    clone, the submodule sync, the submodule update) exits non-zero, the
    run ends there: no event of the final copy step occurs, and the
    process exits through [sys.exit] with that command's return code,
    which is the status its parent observes for the codes 1 to 255. The
    process exits with 0 exactly when [main] ran to its end. *)
Theorem fatal_failure_halts_with_its_code {W : Type} (os : OS W) (w : W) :
  (forall cmd cwd rc out,
      In (Run cmd cwd (Exited rc out)) (trace (script os w)) ->
      is_fatal cmd = true -> rc <> 0%Z ->
      result (script os w) = Exit rc
      /\ existsb is_graft (trace (script os w)) = false
      /\ ((0 < rc < 256)%Z -> observed_status (result (script os w)) = rc))
  /\ (result (main os w) = Return tt <-> result (script os w) = Exit 0).
Proof.
  pose proof (main_facts os w) as (Hfatal & Hrc & _). cbn zeta in *.
  unfold script. destruct (main os w) as [[r w1] t].
  cbn [result trace fst snd] in *. split.
  - intros cmd cwd rc out Hin Hcmd Hnz.
    assert (Hex : existsb (fatal_failure rc) t = true).
    { apply existsb_exists. exists (Run cmd cwd (Exited rc out)). split.
      - destruct r as [[]|[rc'|]]; cbn [trace snd] in Hin; try assumption.
        apply in_app_or in Hin as [Hin|[Hin|[]]]; [assumption | discriminate Hin].
      - simpl. rewrite Hcmd, Z.eqb_refl. apply Z.eqb_neq in Hnz. now rewrite Hnz. }
    destruct (Hfatal rc Hex) as [-> Hg]. cbn [result trace fst snd].
    split; [reflexivity|]. split.
    + rewrite existsb_app, Hg. reflexivity.
    + intros Hrange. unfold observed_status. apply Z.mod_small. lia.
  - destruct r as [[]|[rc|]]; cbn [result fst]; split; try discriminate; try reflexivity.
    intros E. injection E as ->. now destruct (Hrc 0%Z eq_refl).
Qed.

(** C4. The acquisition has three cases. With neither staging directory
    nor backup, the run opens with the clone command, issued once in the
    whole run, with no copy of a backup; the removal starts right after a
    clone that exited with 0, and nothing follows one that did not. With
    a backup and no staging directory, the run opens with the copy of the
    backup to the staging path, made once, and issues no clone. With a
    staging directory the run opens with the removal itself: no clone and
    no copy of a backup occur. *)
Theorem acquisition_three_cases {W : Type} (os : OS W) (w : W) :
  (path_exists os ci_tmp w = false -> path_exists os ci_tmp_bk w = false ->
   count is_clone (trace (main os w)) = 1
   /\ count is_backup_copy (trace (main os w)) = 0
   /\ exists r rest,
        trace (main os w)
        = Print Cloning :: Print (Echo cmd_clone) :: Run cmd_clone None r :: rest
        /\ match r with
           | Exited rc _ =>
               if (rc =? 0)%Z
               then exists rest', rest = Print (Removing (lit "libs") ci_tmp) :: rest'
               else rest = []
           | NotStarted => rest = []
           end)
  /\ (path_exists os ci_tmp w = false -> path_exists os ci_tmp_bk w = true ->
      count is_clone (trace (main os w)) = 0
      /\ count is_backup_copy (trace (main os w)) = 1
      /\ exists ok rest,
           trace (main os w)
           = Print CopyingBackup :: CopyTree ci_tmp_bk ci_tmp false ok :: rest
           /\ if ok
              then exists rest', rest = Print (Removing (lit "libs") ci_tmp) :: rest'
              else rest = [])
  /\ (path_exists os ci_tmp w = true ->
      count is_clone (trace (main os w)) = 0
      /\ count is_backup_copy (trace (main os w)) = 0
      /\ exists rest, trace (main os w) = Print (Removing (lit "libs") ci_tmp) :: rest).
Proof.
  pose proof (main_facts os w) as (_ & _ & Hclone & Hcopy & Hnone). cbn zeta in *.
  split; [|split].
  - intros H1 H2. destruct (Hclone H1 H2) as (r & rest & -> & Hc & Hb & Hnext).
    rewrite !count_cons, Hc, Hb. repeat split; try reflexivity.
    exists r, rest. now split.
  - intros H1 H2. destruct (Hcopy H1 H2) as (ok & rest & -> & Hc & Hb & Hnext).
    rewrite !count_cons, Hc, Hb. repeat split; try reflexivity.
    exists ok, rest. now split.
  - exact Hnone.
Qed.

(** ** The tree filesystem *)

Section TreeFacts.













End TreeFacts.


Section Graft.

Variable git : command -> option path -> dir -> spawn_result * dir.
Variables (excl lib : pystr) (ces w : dir).













End Graft.

Section GraftResult.

Variable git : command -> option path -> dir -> spawn_result * dir.
Variables (excl lib : pystr) (ces w : dir).

Hypothesis unique_names : NoDup (names w).
Hypothesis staging_is_dir : assoc excl w = Some (Dir ces).
Hypothesis dst_free : assoc lib ces = None \/ assoc lib ces = Some (Dir []).
Hypothesis no_dangling :
  forall k x, In (k, x) w -> PyStr.eqb k excl = false -> resolve x <> None.






End GraftResult.





(** ** The calls of the copy step *)

Section GraftCalls.

Context {W : Type} (os : OS W).
Variables (src dst : path) (excl : pystr).

Lemma copies_app a b : copies (a ++ b) = copies a ++ copies b.
Proof.
  induction a as [|e a IH]; [reflexivity|].
  destruct e as [| | | | |s d [|] [|]|s d [|]|]; simpl; now rewrite ?IH.
Qed.



End GraftCalls.

(** ** The graft *)








(** ** The theorems at work on the sample worlds *)

(** With every command failing, the removal still runs to its end. *)
Lemma removal_failures_tolerated_witness :
  result (remove_submodule (tree_os (git_exits 128)) ci_tmp (lit "libs") staged)
  = Return tt
  /\ failures_warned
       (trace (remove_submodule (tree_os (git_exits 128)) ci_tmp (lit "libs") staged))
     = true.
Proof.
  destruct (removal_failures_tolerated (tree_os (git_exits 128)) ci_tmp (lit "libs") staged)
    as (_ & Hwarned & Hruns).
  split; [|exact Hwarned].
  apply Hruns. vm_compute. reflexivity.
Defined.

(** The structured removal fails, the fallback rewrites the registry, and
    the registry is staged. *)
Lemma staged_iff_modified_witness :
  existsb (ran cmd_stage)
    (trace (remove_submodule (tree_os (git_exits 128)) ci_tmp (lit "libs") staged))
  = true.
Proof.
  apply (proj2 (staged_iff_modified (tree_os (git_exits 128)) ci_tmp (lit "libs") staged)).
  right. vm_compute. reflexivity.
Defined.

(** A failing submodule update ends the run with its status, before the
    graft. *)
Lemma fatal_failure_halts_with_its_code_witness :
  result (script (tree_os git_update_fails) fresh) = Exit 1
  /\ existsb is_graft (trace (script (tree_os git_update_fails) fresh)) = false
  /\ observed_status (result (script (tree_os git_update_fails) fresh)) = 1%Z.
Proof.
  assert (Hin : In (Run cmd_update (Some ci_tmp) (Exited 1 []))
                  (trace (script (tree_os git_update_fails) fresh))).
  { vm_compute. repeat (first [left; reflexivity | right]). }
  destruct (proj1 (fatal_failure_halts_with_its_code (tree_os git_update_fails) fresh)
              cmd_update (Some ci_tmp) 1%Z [] Hin eq_refl ltac:(discriminate))
    as (Hexit & Hgraft & Hstatus).
  split; [exact Hexit|]. split; [exact Hgraft|]. apply Hstatus. lia.
Defined.

(** The three cases of the acquisition. *)
Lemma acquisition_three_cases_witness :
  count is_clone (trace (main (tree_os git_update_fails) fresh)) = 1
  /\ count is_backup_copy (trace (main (tree_os git_update_fails) backed_up)) = 1
  /\ count is_clone (trace (main (tree_os git_update_fails) backed_up)) = 0
  /\ count is_clone (trace (main (tree_os git_update_fails) staged)) = 0
  /\ count is_backup_copy (trace (main (tree_os git_update_fails) staged)) = 0.
Proof.
  destruct (acquisition_three_cases (tree_os git_update_fails) fresh)
    as (Hclone & _ & _).
  destruct (acquisition_three_cases (tree_os git_update_fails) backed_up)
    as (_ & Hcopy & _).
  destruct (acquisition_three_cases (tree_os git_update_fails) staged)
    as (_ & _ & Hnone).
  destruct (Hclone eq_refl eq_refl) as (H1 & _).
  destruct (Hcopy eq_refl eq_refl) as (H2 & H3 & _).
  destruct (Hnone eq_refl) as (H4 & H5 & _).
  repeat split; assumption.
Defined.

(** ** More on the text fallback *)

Section FallbackMore.

Variable name : pystr.

Lemma scan_subsequence lines : forall skip, subsequence (scan name skip lines) lines.
Proof.
  induction lines as [|l lines IH]; intros skip; cbn [scan].
  - constructor.
  - destruct (opens_target name l); [apply subsequence_drop, IH|].
    destruct (negb (if skip && opens_section l then false else skip)).
    + apply subsequence_keep, IH.
    + apply subsequence_drop, IH.
Qed.

Lemma in_join c sep (parts : list pystr) :
  In c (join sep parts) -> In c sep \/ exists p, In p parts /\ In c p.
Proof.
  induction parts as [|p parts IH]; [contradiction|].
  destruct parts as [|q parts].
  - intros H. right. exists p. split; [now left | exact H].
  - change (join sep (p :: q :: parts)) with (p ++ sep ++ join sep (q :: parts)).
    intros H. apply in_app_or in H as [H|H].
    + right. exists p. split; [now left | exact H].
    + apply in_app_or in H as [H|H]; [now left|].
      destruct (IH H) as [H'|(p' & Hp' & Hc)]; [now left|].
      right. exists p'. split; [now right | exact Hc].
Qed.

End FallbackMore.

(** X1. The text fallback only leaves lines out: the lines it keeps are
    lines of the input, in their order, none of them added or moved. *)
Theorem fallback_keeps_a_subsequence (name : pystr) (lines : list pystr) :
  subsequence (kept_lines name lines) lines.
Proof. rewrite kept_lines_scan. apply scan_subsequence. Qed.

(** X2. A registry in which no line opens the target section, made of at
    least one line, each ended by LF and free of other line boundaries, is
    written back by the text fallback exactly as it was. *)
Theorem fallback_without_target_changes_nothing (name : pystr) (lines : list pystr) :
  lines <> [] ->
  forallb no_linebreak lines = true ->
  forallb (fun l => negb (opens_target name l)) lines = true ->
  rewrite_file name (unlines lines) = unlines lines.
Proof.
  intros Hne Hnl Hnt. unfold rewrite_file.
  rewrite (universal_newlines_id (length (unlines lines)))
    by auto using no_cr_unlines.
  unfold new_content.
  rewrite splitlines_unlines, kept_lines_scan, scan_id by assumption.
  now apply join_unlines.
Qed.

Lemma fallback_without_target_changes_nothing_witness :
  rewrite_file libs (render [other_section; spaced_section])
  = render [other_section; spaced_section].
Proof.
  apply (fallback_without_target_changes_nothing libs
           (flat_map render_section [other_section; spaced_section])).
  - discriminate.
  - reflexivity.
  - reflexivity.
Defined.

(** X3. Whatever the input, the only line boundary in the content the
    text fallback writes is LF: carriage returns, form feeds and the
    Unicode line separators of the input are all replaced. *)
Theorem fallback_writes_only_lf (name content : pystr) :
  forallb (fun c => negb (is_linebreak c) || char_eqb c LF)
    (new_content name content) = true.
Proof.
  apply forallb_forall. intros c Hin.
  destruct (is_linebreak c) eqn:Hc; [|reflexivity]. cbn [negb orb].
  apply char_eqb_eq. unfold new_content in Hin.
  apply in_app_or in Hin as [Hin|[Hin|[]]]; [|now symmetry].
  apply in_join in Hin as [[Hin|[]]|(l & Hl & Hin)]; [now symmetry|].
  exfalso.
  assert (Hk : forallb no_linebreak (kept_lines name (splitlines content)) = true).
  { rewrite kept_lines_scan. apply scan_forallb, splitlines_no_linebreak. }
  rewrite forallb_forall in Hk. specialize (Hk l Hl).
  unfold no_linebreak in Hk. rewrite forallb_forall in Hk. specialize (Hk c Hin).
  now rewrite Hc in Hk.
Qed.

(** X4. On a well-formed registry the text fallback removes every
    section that bears the target name, however many there are, and keeps
    every other section as it was, also one whose name only begins with
    the target name; a single newline is written when nothing is left. *)
Theorem fallback_removes_every_section_of_the_name (name : pystr) (cfg : list section) :
  well_formed cfg = true ->
  rewrite_file name (render cfg)
  = match without name cfg with
    | [] => [LF]
    | rest => render rest
    end.
Proof.
  intros Hwf. rewrite (rewrite_render name cfg Hwf).
  destruct (without name cfg) as [|s rest] eqn:E; [reflexivity|].
  unfold render. apply join_unlines. simpl. congruence.
Qed.

Lemma fallback_removes_every_section_of_the_name_witness :
  rewrite_file libs (render crowded_registry)
  = render [mkSection (lit "libs2") [TAB :: lit "path = libs2"]; other_section].
Proof.
  exact (fallback_removes_every_section_of_the_name libs crowded_registry eq_refl).
Defined.

(** ** The output [run] captures *)

Section StripFacts.

Lemma lstrip_split s :
  exists a, s = a ++ lstrip s /\ all_space a = true
            /\ starts_with_space (lstrip s) = false.
Proof.
  induction s as [|c s (a & Hs & Ha & Hl)].
  - exists []. repeat split.
  - cbn [lstrip]. destruct (isspace c) eqn:Hc.
    + exists (c :: a). cbn [app all_space forallb]. rewrite Hc.
      repeat split; [now f_equal | exact Ha | exact Hl].
    + exists []. repeat split. exact Hc.
Qed.

Lemma all_space_rev a : all_space (rev a) = all_space a.
Proof.
  unfold all_space. induction a as [|c a IH]; [reflexivity|].
  cbn [rev forallb]. rewrite forallb_app, IH. cbn [forallb].
  rewrite andb_true_r. apply andb_comm.
Qed.

Lemma rstrip_split s :
  exists b, s = rstrip s ++ b /\ all_space b = true
            /\ ends_with_space (rstrip s) = false.
Proof.
  destruct (lstrip_split (rev s)) as (a & Hs & Ha & Hl).
  exists (rev a). unfold rstrip, ends_with_space. rewrite rev_involutive.
  repeat split.
  - rewrite <- rev_app_distr, <- Hs. now rewrite rev_involutive.
  - now rewrite all_space_rev.
  - exact Hl.
Qed.

Lemma starts_with_space_prefix u b :
  u <> [] -> starts_with_space (u ++ b) = starts_with_space u.
Proof. destruct u; [congruence | reflexivity]. Qed.

(** [s.strip()] is [s] without the whitespace at its two ends. *)
Lemma strip_split s :
  exists a b, s = a ++ strip s ++ b
              /\ all_space a = true /\ all_space b = true
              /\ starts_with_space (strip s) = false
              /\ ends_with_space (strip s) = false.
Proof.
  destruct (lstrip_split s) as (a & Hs & Ha & Hl).
  destruct (rstrip_split (lstrip s)) as (b & Hu & Hb & Hr).
  exists a, b. unfold strip. repeat split; try assumption.
  - now rewrite <- Hu.
  - destruct (rstrip (lstrip s)) as [|c u] eqn:E; [reflexivity|].
    rewrite Hu in Hl. exact Hl.
Qed.

End StripFacts.

(** X5. What [run] returns when asked to capture the output is the
    standard output of a command that exited with 0, without the
    whitespace at its two ends and otherwise unchanged; without capture it
    returns no text at all. *)
Theorem run_returns_trimmed_output {W : Type} (os : OS W)
  (cmd : command) (cwd : option path) (w : W) :
  (forall out, result (run os cmd true cwd w) = Return (Some out) ->
     exists stdout a b,
       fst (subprocess_run os cmd cwd w) = Exited 0 stdout
       /\ stdout = a ++ out ++ b
       /\ all_space a = true /\ all_space b = true
       /\ starts_with_space out = false /\ ends_with_space out = false)
  /\ (forall v, result (run os cmd false cwd w) = Return v -> v = None).
Proof.
  unfold run, bind, print, subprocess_run_check, ret.
  destruct (subprocess_run os cmd cwd w) as [[rc stdout|] w1]; cbn [result fst snd].
  - destruct (rc =? 0)%Z eqn:Hrc; cbn [result fst].
    + apply Z.eqb_eq in Hrc. subst rc. split.
      * intros out E. injection E as <-.
        destruct (strip_split stdout) as (a & b & H).
        exists stdout, a, b. split; [reflexivity | exact H].
      * intros v E. now injection E as <-.
    + split; intros ? E; discriminate E.
  - split; intros ? E; discriminate E.
Qed.

Lemma run_returns_trimmed_output_witness :
  exists stdout a b,
    fst (subprocess_run (tree_os (git_says (lit "  v2.83 " ++ [LF]))) cmd_sync None fresh)
    = Exited 0 stdout
    /\ stdout = a ++ lit "v2.83" ++ b
    /\ all_space a = true /\ all_space b = true
    /\ starts_with_space (lit "v2.83") = false /\ ends_with_space (lit "v2.83") = false.
Proof.
  apply (proj1 (run_returns_trimmed_output
                  (tree_os (git_says (lit "  v2.83 " ++ [LF]))) cmd_sync None fresh)).
  reflexivity.
Defined.

(** ** How runs are confined and how they fail *)

Section Confinement.

Context {W : Type} (os : OS W).

Lemma within_bind P {A B} (m : @M W A) (k : A -> @M W B) :
  within P m -> (forall a, within P (k a)) -> within P (bind m k).
Proof.
  intros Hm Hk w. unfold bind. specialize (Hm w).
  destruct (m w) as [[[a|e] w1] t1]; cbn [trace snd] in *; [|exact Hm].
  specialize (Hk a w1). destruct (k a w1) as [[r w2] t2].
  cbn [trace snd] in *. now rewrite forallb_app, Hm, Hk.
Qed.

Lemma within_try P {A} (body handler : @M W A) :
  within P body -> within P handler -> within P (try_except body handler).
Proof.
  intros Hb Hh w. unfold try_except. specialize (Hb w).
  destruct (body w) as [[[a|[rc|]] w1] t1]; cbn [trace snd] in *; try exact Hb.
  specialize (Hh w1). destruct (handler w1) as [[r w2] t2].
  cbn [trace snd] in *. now rewrite forallb_app, Hb, Hh.
Qed.

Lemma within_ret P {A} (a : A) : within P (@ret W A a).
Proof. intros w. reflexivity. Qed.

Lemma within_for_each P {A} (xs : list A) (body : A -> @M W unit) :
  (forall x, within P (body x)) -> within P (for_each xs body).
Proof.
  intros H. induction xs as [|x xs IH]; cbn [for_each].
  - apply within_ret.
  - apply within_bind; auto.
Qed.

Lemma within_if P {A} (b : bool) (m1 m2 : @M W A) :
  within P m1 -> within P m2 -> within P (if b then m1 else m2).
Proof. now destruct b. Qed.

Lemma within_print P m : P (Print m) = true -> within P (@print W m).
Proof. intros H w. cbn. now rewrite H. Qed.

Lemma within_exists P p : within P (exists_ os p).
Proof. intros w. reflexivity. Qed.

Lemma within_is_dir P p : within P (is_dir os p).
Proof. intros w. reflexivity. Qed.

Lemma within_iterdir P p : within P (iterdir os p).
Proof. intros w. reflexivity. Qed.

Lemma within_rmtree P p : P (RmTree p) = true -> within P (rmtree os p).
Proof. intros H w. cbn. now rewrite H. Qed.

Lemma within_mkdir P p : (forall ok, P (MkDir p ok) = true) -> within P (mkdir os p).
Proof.
  intros H w. unfold mkdir. destruct (path_mkdir os p w) as [r w1].
  cbn. now rewrite H.
Qed.

Lemma within_read_text P p :
  (forall ok, P (ReadText p ok) = true) -> within P (read_text os p).
Proof. intros H w. unfold read_text. cbn. now rewrite H. Qed.

Lemma within_write_text P p s :
  (forall ok, P (WriteText p s ok) = true) -> within P (write_text os p s).
Proof.
  intros H w. unfold write_text. destruct (path_write_text os p s w) as [r w1].
  cbn. now rewrite H.
Qed.

Lemma within_copytree P src dst symlinks :
  (forall ok, P (CopyTree src dst symlinks ok) = true) ->
  within P (copytree os src dst symlinks).
Proof.
  intros H w. unfold copytree. destruct (shutil_copytree os src dst symlinks w) as [r w1].
  cbn. now rewrite H.
Qed.

Lemma within_copy2 P src dst :
  (forall ok, P (Copy2 src dst ok) = true) -> within P (copy2 os src dst).
Proof.
  intros H w. unfold copy2. destruct (shutil_copy2 os src dst w) as [r w1].
  cbn. now rewrite H.
Qed.

Lemma within_run P cmd capture cwd :
  P (Print (Echo cmd)) = true -> (forall r, P (Run cmd cwd r) = true) ->
  within P (run os cmd capture cwd).
Proof.
  intros H1 H2 w. unfold run, bind, print, subprocess_run_check.
  destruct (subprocess_run os cmd cwd w) as [[rc out|] w1]; cbn [trace snd].
  - destruct (rc =? 0)%Z; destruct capture; cbn; now rewrite H1, H2.
  - cbn. now rewrite H1, H2.
Qed.

End Confinement.

Ltac within_steps :=
  repeat first
    [ apply within_run
    | apply within_print
    | apply within_rmtree
    | apply within_read_text
    | apply within_write_text
    | apply within_ret
    | apply within_exists
    | apply within_is_dir
    | apply within_iterdir
    | apply within_try
    | apply within_if
    | apply within_bind; [|intros ?] ].

Lemma new_content_no_target (name content : pystr) :
  forallb (fun l => negb (opens_target name l)) (splitlines (new_content name content))
  = true.
Proof.
  rewrite new_content_cases.
  pose proof (splitlines_no_linebreak content) as Hnl.
  pose proof (scan_no_target name (splitlines content) false) as Hnt.
  pose proof (scan_forallb no_linebreak name (splitlines content) false Hnl) as Hk.
  rewrite <- kept_lines_scan in Hnt, Hk.
  destruct (kept_lines name (splitlines content)) as [|k ks]; [reflexivity|].
  now rewrite splitlines_unlines.
Qed.

Lemma last_snoc (p : path) (k : pystr) : last (p ++ [k]) [] = k.
Proof. apply last_last. Qed.

(** X6. Submodule removal stays within its task: the only commands it
    runs are its four git commands, each in the repository it was given;
    the only file it reads or writes is that repository's .gitmodules; the
    only directories it removes are the submodule's directory and its
    metadata directory; it copies nothing and creates no directory. *)
Theorem removal_stays_within_its_task {W : Type} (os : OS W)
  (path : path) (name : pystr) (w : W) :
  forallb (removal_event path name) (trace (remove_submodule os path name w)) = true.
Proof.
  revert w. change (within (removal_event path name) (remove_submodule os path name)).
  unfold remove_submodule. within_steps.
  all: try reflexivity.
  all: try (intros ?); cbn [removal_event];
    rewrite ?path_eqb_refl, ?command_eqb_refl, ?orb_true_r; reflexivity.
Qed.

(** X7. Whatever submodule removal writes, it ends with a newline and
    holds no line that opens the section of the submodule removed. *)
Theorem removal_writes_no_target_section {W : Type} (os : OS W)
  (path : path) (name : pystr) (w : W) :
  forallb (writes_without name) (trace (remove_submodule os path name w)) = true.
Proof.
  revert w. change (within (writes_without name) (remove_submodule os path name)).
  unfold remove_submodule. within_steps.
  all: try reflexivity.
  intros ok. cbn [writes_without].
  rewrite new_content_no_target, andb_true_r.
  unfold new_content. apply ends_with_newline_snoc.
Qed.

(** X8. The calls of the copy step are bounded by its arguments, whether
    it runs to its end or not: besides its message and the creation of
    the destination, every call it makes is a copy from [src/k] to
    [dst/k] for a name [k] other than the excluded one, by [copytree]
    with [symlinks=True] or by [copy2]; it runs no command, removes
    nothing and writes no file. No call has the excluded entry as its
    source. *)
Theorem graft_calls_skip_excluded_name {W : Type} (os : OS W)
  (src dst : path) (excl : pystr) (w : W) :
  forallb (graft_event src dst excl) (trace (copy_local_repo_to_libs os src dst excl w))
  = true.
Proof.
  revert w.
  change (within (graft_event src dst excl) (copy_local_repo_to_libs os src dst excl)).
  unfold copy_local_repo_to_libs.
  apply within_bind; [apply within_print; apply path_eqb_refl | intros _].
  apply within_bind; [apply within_mkdir; intros ok; apply path_eqb_refl | intros _].
  apply within_bind; [apply within_iterdir | intros items].
  apply within_for_each. intros k.
  destruct (PyStr.eqb k excl) eqn:Ek; [apply within_ret|].
  apply within_bind; [apply within_is_dir | intros [|]].
  - apply within_copytree. intros ok. cbn [graft_event]. unfold item_copy.
    now rewrite last_snoc, Ek, !path_eqb_refl.
  - apply within_copy2. intros ok. cbn [graft_event]. unfold item_copy.
    now rewrite last_snoc, Ek, !path_eqb_refl.
Qed.

(** ** How runs fail *)

Section Failing.

Context {W : Type} (os : OS W).

Lemma removelast_app_nonempty (a b : list event) :
  b <> [] -> removelast (a ++ b) = a ++ removelast b.
Proof. apply removelast_app. Qed.

Lemma existsb_removelast (f : event -> bool) t :
  existsb f t = false -> existsb f (removelast t) = false.
Proof.
  induction t as [|e t IH]; [reflexivity|].
  cbn [existsb]. intros H. apply orb_false_iff in H as [He Ht].
  destruct t as [|e' t]; [reflexivity|].
  change (removelast (e :: e' :: t)) with (e :: removelast (e' :: t)).
  cbn [existsb]. now rewrite He, IH.
Qed.

(** A run that did not end by [OtherError] saw no library call raise. *)
Lemma orderly_clean {A} (m : @M W A) w :
  orderly m -> result (m w) <> Raise OtherError ->
  existsb library_error (trace (m w)) = false.
Proof.
  intros Hm Hr. destruct (Hm w) as (_ & H & _).
  destruct (existsb library_error (trace (m w))); [|reflexivity].
  now destruct Hr; apply H.
Qed.

Lemma orderly_append {A} (t1 t2 : list event) (r : outcome A) :
  existsb library_error t1 = false ->
  existsb library_error (removelast t2) = false
  /\ (existsb library_error t2 = true -> r = Raise OtherError)
  /\ (forall rc, r = Raise (CalledProcessError rc) ->
        rc <> 0%Z /\ exists t cmd cwd out, t2 = t ++ [Run cmd cwd (Exited rc out)]) ->
  existsb library_error (removelast (t1 ++ t2)) = false
  /\ (existsb library_error (t1 ++ t2) = true -> r = Raise OtherError)
  /\ (forall rc, r = Raise (CalledProcessError rc) ->
        rc <> 0%Z
        /\ exists t cmd cwd out, t1 ++ t2 = t ++ [Run cmd cwd (Exited rc out)]).
Proof.
  intros H1 (Ha & Hb & Hc). repeat split.
  - destruct t2 as [|e t2].
    + rewrite app_nil_r. now apply existsb_removelast.
    + rewrite removelast_app by discriminate. now rewrite existsb_app, H1, Ha.
  - rewrite existsb_app, H1. exact Hb.
  - now apply Hc.
  - destruct (Hc rc H) as (_ & t & cmd & cwd & out & ->).
    exists (t1 ++ t), cmd, cwd, out. now rewrite app_assoc.
Qed.

Lemma orderly_bind {A B} (m : @M W A) (k : A -> @M W B) :
  orderly m -> (forall a, orderly (k a)) -> orderly (bind m k).
Proof.
  intros Hm Hk w. unfold bind.
  pose proof (orderly_clean m w Hm) as Hclean. specialize (Hm w).
  destruct (m w) as [[[a|e] w1] t1]; cbn [trace result fst snd] in *.
  - specialize (Hk a w1). destruct (k a w1) as [[r w2] t2].
    cbn [trace result fst snd] in *.
    apply orderly_append; [apply Hclean; discriminate | exact Hk].
  - destruct Hm as (Ha & Hb & Hc). repeat split.
    + exact Ha.
    + intros H. specialize (Hb H). congruence.
    + apply (Hc rc). congruence.
    + apply (Hc rc). congruence.
Qed.

Lemma orderly_try {A} (body handler : @M W A) :
  orderly body -> orderly handler -> orderly (try_except body handler).
Proof.
  intros Hb Hh w. unfold try_except.
  pose proof (orderly_clean body w Hb) as Hclean. specialize (Hb w).
  destruct (body w) as [[[a|[rc|]] w1] t1]; cbn [trace result fst snd] in *;
    try exact Hb.
  specialize (Hh w1). destruct (handler w1) as [[r w2] t2].
  cbn [trace result fst snd] in *.
  apply orderly_append; [apply Hclean; discriminate | exact Hh].
Qed.

Lemma orderly_quiet {A} (m : @M W A) :
  (forall w, existsb library_error (trace (m w)) = false
             /\ exists a, result (m w) = Return a) ->
  orderly m.
Proof.
  intros H w. destruct (H w) as (Ht & a & Hr). repeat split.
  - now apply existsb_removelast.
  - rewrite Ht. discriminate.
  - rewrite Hr in H0. discriminate.
  - rewrite Hr in H0. discriminate.
Qed.

Lemma orderly_ret {A} (a : A) : orderly (@ret W A a).
Proof. apply orderly_quiet. intros w. split; [reflexivity | now exists a]. Qed.

Lemma orderly_print m : orderly (@print W m).
Proof. apply orderly_quiet. intros w. split; [reflexivity | now exists tt]. Qed.

Lemma orderly_exists p : orderly (exists_ os p).
Proof. apply orderly_quiet. intros w. split; [reflexivity | now eexists]. Qed.

Lemma orderly_is_dir p : orderly (is_dir os p).
Proof. apply orderly_quiet. intros w. split; [reflexivity | now eexists]. Qed.

Lemma orderly_rmtree p : orderly (rmtree os p).
Proof. apply orderly_quiet. intros w. split; [reflexivity | now exists tt]. Qed.

(** A call that leaves one event, marked when it raised. *)
Lemma orderly_call {A} (r : res A) (w1 : W) (e : bool -> event) :
  (forall ok, library_error (e ok) = negb ok) ->
  existsb library_error (removelast [e (is_ok r)]) = false
  /\ (existsb library_error [e (is_ok r)] = true -> lift_res r = Raise OtherError)
  /\ (forall rc, lift_res r = Raise (CalledProcessError rc) ->
        rc <> 0%Z
        /\ exists t cmd cwd out, [e (is_ok r)] = t ++ [Run cmd cwd (Exited rc out)]).
Proof.
  intros He. destruct r as [a|]; cbn [lift_res is_ok existsb removelast];
    rewrite ?He; cbn [negb orb]; repeat split; try discriminate; reflexivity.
Qed.

Lemma orderly_iterdir p : orderly (iterdir os p).
Proof.
  intros w. unfold iterdir. cbn [trace result fst snd].
  destruct (path_iterdir os p w); cbn [lift_res]; repeat split; try discriminate.
Qed.

Lemma orderly_mkdir p : orderly (mkdir os p).
Proof.
  intros w. unfold mkdir. destruct (path_mkdir os p w) as [r w1].
  cbn [trace result fst snd]. now apply (orderly_call r w1 (MkDir p)).
Qed.

Lemma orderly_read_text p : orderly (read_text os p).
Proof.
  intros w. unfold read_text. cbn [trace result fst snd].
  now apply (orderly_call (path_read_text os p w) w (ReadText p)).
Qed.

Lemma orderly_write_text p s : orderly (write_text os p s).
Proof.
  intros w. unfold write_text. destruct (path_write_text os p s w) as [r w1].
  cbn [trace result fst snd]. now apply (orderly_call r w1 (WriteText p s)).
Qed.

Lemma orderly_copytree src dst symlinks : orderly (copytree os src dst symlinks).
Proof.
  intros w. unfold copytree. destruct (shutil_copytree os src dst symlinks w) as [r w1].
  cbn [trace result fst snd]. now apply (orderly_call r w1 (CopyTree src dst symlinks)).
Qed.

Lemma orderly_copy2 src dst : orderly (copy2 os src dst).
Proof.
  intros w. unfold copy2. destruct (shutil_copy2 os src dst w) as [r w1].
  cbn [trace result fst snd]. now apply (orderly_call r w1 (Copy2 src dst)).
Qed.

Lemma orderly_subprocess_run_check cmd cwd : orderly (subprocess_run_check os cmd cwd).
Proof.
  intros w. unfold subprocess_run_check.
  destruct (subprocess_run os cmd cwd w) as [[rc out|] w1]; cbn [trace result fst snd].
  - destruct (rc =? 0)%Z eqn:Hrc; cbn [existsb removelast library_error orb].
    + repeat split; discriminate.
    + split; [reflexivity|]. split; [discriminate|].
      intros rc' E. injection E as <-. split.
      * now apply Z.eqb_neq.
      * exists [], cmd, cwd, out. reflexivity.
  - cbn [existsb removelast library_error orb]. repeat split; discriminate.
Qed.

Lemma orderly_run cmd capture cwd : orderly (run os cmd capture cwd).
Proof.
  unfold run. apply orderly_bind; [apply orderly_print | intros _].
  apply orderly_bind; [apply orderly_subprocess_run_check | intros out].
  destruct capture; apply orderly_ret.
Qed.

Lemma orderly_for_each {A} (xs : list A) (body : A -> @M W unit) :
  (forall x, orderly (body x)) -> orderly (for_each xs body).
Proof.
  intros H. induction xs as [|x xs IH]; cbn [for_each].
  - apply orderly_ret.
  - apply orderly_bind; auto.
Qed.

Lemma orderly_if {A} (b : bool) (m1 m2 : @M W A) :
  orderly m1 -> orderly m2 -> orderly (if b then m1 else m2).
Proof. now destruct b. Qed.

End Failing.

Ltac orderly_steps :=
  repeat first
    [ apply orderly_run
    | apply orderly_print
    | apply orderly_rmtree
    | apply orderly_read_text
    | apply orderly_write_text
    | apply orderly_copytree
    | apply orderly_copy2
    | apply orderly_mkdir
    | apply orderly_iterdir
    | apply orderly_ret
    | apply orderly_exists
    | apply orderly_is_dir
    | apply orderly_try
    | apply orderly_if
    | apply orderly_for_each; intros ?
    | apply orderly_bind; [|intros ?] ].

Lemma main_orderly {W : Type} (os : OS W) : orderly (main os).
Proof.
  unfold main, remove_submodule, copy_local_repo_to_libs. orderly_steps.
Qed.

(** X9. A library call that raises (a command that cannot be started,
    a file that cannot be read or written, a copy or a directory creation
    that fails) ends the run at once: it is the last event of the trace,
    and the process ends by the uncaught exception, not through
    [sys.exit]. *)
Theorem library_error_ends_the_run {W : Type} (os : OS W) (w : W)
  (t1 : list event) (e : event) (t2 : list event) :
  trace (script os w) = t1 ++ e :: t2 ->
  library_error e = true ->
  t2 = [] /\ result (script os w) = Uncaught.
Proof.
  destruct (main_orderly os w) as (Hlast & Herr & _).
  unfold script. destruct (main os w) as [[r w1] t].
  cbn [trace result fst snd] in *. intros Ht He.
  assert (Hin : forall t', t' = t1 ++ e :: t2 -> existsb library_error t' = true).
  { intros t' ->. rewrite existsb_app. cbn [existsb]. now rewrite He, orb_true_r. }
  destruct r as [[]|[rc|]]; cbn [trace result fst snd] in *.
  - specialize (Herr (Hin t Ht)). discriminate.
  - assert (H : existsb library_error (t ++ [Print (CommandFailed rc)]) = true)
      by now apply Hin.
    rewrite existsb_app in H. cbn in H. rewrite orb_false_r in H.
    specialize (Herr H). discriminate.
  - split; [|reflexivity].
    destruct t2 as [|e' t2]; [reflexivity|]. exfalso.
    rewrite Ht in Hlast. rewrite removelast_app in Hlast by discriminate.
    change (removelast (e :: e' :: t2)) with (e :: removelast (e' :: t2)) in Hlast.
    rewrite existsb_app in Hlast. cbn [existsb] in Hlast.
    rewrite He, orb_true_r in Hlast. discriminate.
Qed.

Lemma library_error_ends_the_run_witness :
  result (script (tree_os (fun _ _ v => (NotStarted, v))) fresh) = Uncaught.
Proof.
  apply (library_error_ends_the_run (tree_os (fun _ _ v => (NotStarted, v))) fresh
           [Print Cloning; Print (Echo cmd_clone)] (Run cmd_clone None NotStarted) []).
  - reflexivity.
  - reflexivity.
Defined.

Lemma multiple_of_256 (rc : Z) :
  (-256 < rc < 256)%Z -> (rc mod 256 = 0)%Z -> rc = 0%Z.
Proof.
  intros Hrange Hmod. apply Z.mod_divide in Hmod; [|lia].
  destruct Hmod as [k Hk]. lia.
Qed.

(** X10. As long as the return codes of the commands lie between -255
    and 255, as those of [subprocess] do, the status the parent observes
    is 0 exactly when [main] ran to its end: a failed run never reports
    success. *)
Theorem status_zero_means_success {W : Type} (os : OS W) (w : W) :
  (forall cmd cwd rc out,
      In (Run cmd cwd (Exited rc out)) (trace (script os w)) -> (-256 < rc < 256)%Z) ->
  (observed_status (result (script os w)) = 0%Z <-> result (main os w) = Return tt).
Proof.
  destruct (main_orderly os w) as (_ & _ & Hcpe).
  unfold script. destruct (main os w) as [[r w1] t].
  cbn [trace result fst snd] in *. intros Hrange.
  destruct r as [[]|[rc|]]; cbn [trace result fst snd observed_status] in *.
  - split; reflexivity.
  - split; [|discriminate]. intros Hmod. exfalso.
    destruct (Hcpe rc eq_refl) as (Hnz & t' & cmd & cwd & out & ->).
    apply Hnz. apply multiple_of_256; [|exact Hmod].
    apply (Hrange cmd cwd rc out).
    rewrite <- app_assoc. apply in_or_app. right. now left.
  - split; discriminate.
Qed.

Lemma status_zero_means_success_witness :
  observed_status (result (script (tree_os git_update_fails) fresh)) = 0%Z
  <-> result (main (tree_os git_update_fails) fresh) = Return tt.
Proof.
  apply (status_zero_means_success (tree_os git_update_fails) fresh).
  intros cmd cwd rc out Hin. vm_compute in Hin.
  repeat (destruct Hin as [Hin|Hin];
          [first [discriminate Hin | injection Hin as <- <- <- <-; lia]|]).
  contradiction.
Defined.

(** ** The order of the steps of a removal *)

Lemma removal_order_facts {W : Type} (os : OS W) (path : path) (name : pystr) (w : W) :
  ascending (steps path name (trace (remove_submodule os path name w))) = true
  /\ warnings_justified path name None (trace (remove_submodule os path name w)) = true
  /\ (existsb library_error (trace (remove_submodule os path name w)) = false ->
      existsb (ran cmd_stage) (trace (remove_submodule os path name w))
      = path_exists os (path ++ [lit ".gitmodules"]) w).
Proof.
  unfold_script. script_simpl.
  repeat os_step.
  all: cbn [trace snd steps removal_step warnings_justified is_warning warning_for].
  all: rewrite ?command_eqb_refl, ?eqb_refl.
  all: repeat split; try reflexivity; try discriminate.
Qed.

(** X11. The steps of a removal occur in the order of the source: the
    removal from .gitmodules by command, the fallback's reading and
    writing, the staging, the removal from the local configuration, the
    removal from the index, and only then the removal of directories. In
    particular the registry is staged before [git rm --cached] runs. *)
Theorem removal_steps_in_order {W : Type} (os : OS W)
  (path : path) (name : pystr) (w : W) :
  ascending (steps path name (trace (remove_submodule os path name w))) = true.
Proof. apply (removal_order_facts os path name w). Qed.

(** X12. No warning is printed without cause: each warning of a removal
    comes right after the non-zero exit of the very command it speaks
    of. *)
Theorem warnings_name_the_failed_command {W : Type} (os : OS W)
  (path : path) (name : pystr) (w : W) :
  warnings_justified path name None (trace (remove_submodule os path name w)) = true.
Proof. apply (removal_order_facts os path name w). Qed.

(** X13. Unless a library call raises, the registry is staged exactly
    when the file .gitmodules exists at the start of the removal, whether
    or not it held a section for the submodule. *)
Theorem staged_whenever_registry_exists {W : Type} (os : OS W)
  (path : path) (name : pystr) (w : W) :
  existsb library_error (trace (remove_submodule os path name w)) = false ->
  existsb (ran cmd_stage) (trace (remove_submodule os path name w))
  = path_exists os (path ++ [lit ".gitmodules"]) w.
Proof. apply (removal_order_facts os path name w). Qed.

Lemma staged_whenever_registry_exists_witness :
  existsb (ran cmd_stage)
    (trace (remove_submodule (tree_os (git_exits 0)) ci_tmp (lit "absent") staged))
  = path_exists (tree_os (git_exits 0)) (ci_tmp ++ [lit ".gitmodules"]) staged.
Proof.
  apply (staged_whenever_registry_exists (tree_os (git_exits 0)) ci_tmp
           (lit "absent") staged).
  vm_compute. reflexivity.
Defined.

(** ** The order of the phases of the workflow *)

Lemma guarded_seen g f t : guarded g f true t = true.
Proof.
  induction t as [|e t IH]; [reflexivity|].
  cbn [guarded orb]. rewrite IH. now destruct (g e).
Qed.

Lemma guarded_app g f a : forall seen b,
  existsb g a = false ->
  guarded g f seen (a ++ b) = guarded g f (seen || existsb f a) b.
Proof.
  induction a as [|e a IH]; intros seen b H.
  - cbn. now rewrite orb_false_r.
  - cbn [existsb] in H. apply orb_false_iff in H as [He Ha].
    cbn [app guarded existsb]. rewrite He, IH by assumption.
    cbn [andb]. now rewrite orb_assoc.
Qed.

Lemma guarded_none g f t : forall seen,
  existsb g t = false -> guarded g f seen t = true.
Proof.
  induction t as [|e t IH]; intros seen H; [reflexivity|].
  cbn [existsb] in H. apply orb_false_iff in H as [He Ht].
  cbn [guarded]. now rewrite He, IH.
Qed.

Lemma removal_phase_facts {W : Type} (os : OS W) (path : path) (name : pystr) (w : W) :
  existsb is_graft (trace (remove_submodule os path name w)) = false
  /\ existsb (ran cmd_sync) (trace (remove_submodule os path name w)) = false
  /\ existsb (ran cmd_update) (trace (remove_submodule os path name w)) = false
  /\ existsb is_removing (trace (remove_submodule os path name w)) = true
  /\ (forall rc, result (remove_submodule os path name w)
                 <> Raise (CalledProcessError rc)).
Proof.
  pose proof (remove_submodule_facts os path name w) as (H1 & _ & _ & _ & H5 & (x & Hx)).
  cbn zeta in *. repeat split.
  - revert H5. apply forallb_existsb_false. intros e H.
    apply andb_true_iff in H as [H _]. apply andb_true_iff in H as [H _].
    now apply negb_true_iff in H.
  - revert H5. apply forallb_existsb_false.
    intros [m|c cwd r| | | | | |] H; try reflexivity. cbn in *.
    unfold is_fatal in H. destruct (command_eqb c cmd_sync); [|reflexivity].
    now rewrite orb_true_r in H.
  - revert H5. apply forallb_existsb_false.
    intros [m|c cwd r| | | | | |] H; try reflexivity. cbn in *.
    unfold is_fatal in H. destruct (command_eqb c cmd_update); [|reflexivity].
    now rewrite orb_true_r in H.
  - rewrite Hx. reflexivity.
  - exact H1.
Qed.

Ltac phase_box :=
  match goal with
  | |- context [remove_submodule ?o ?p ?n ?w] =>
      let r := fresh "r" in let w' := fresh "w" in let t := fresh "t" in
      let Hr := fresh "Hr" in
      generalize (removal_phase_facts o p n w);
      destruct (remove_submodule o p n w) as [[r w'] t];
      cbn [result trace fst snd];
      intros (?Hg & ?Hs & ?Hu & ?Hm & Hr);
      destruct r as [[]|[?rc|]]; [| exfalso; eapply Hr; reflexivity |]
  | |- context [copy_local_repo_to_libs ?o ?s ?d ?x ?w] =>
      let r := fresh "r" in let w' := fresh "w" in let t := fresh "t" in
      destruct (copy_local_repo_to_libs o s d x w) as [[r w'] t];
      destruct r as [[]|[?rc|]]
  | |- context [shutil_copytree ?o ?a ?b ?c ?w] =>
      let r := fresh "r" in let w' := fresh "w" in
      destruct (shutil_copytree o a b c w) as [r w'] eqn:?; destruct r as [[]|]
  end; script_simpl.

Ltac phase_leaf :=
  cbn [trace snd guarded];
  repeat first
    [ rewrite guarded_app by assumption
    | rewrite guarded_none by assumption
    | match goal with
      | H : existsb _ _ = _ |- _ => rewrite H
      | H : (_ =? 0)%Z = _ |- _ => rewrite H
      end
    | rewrite guarded_seen
    | rewrite orb_true_r
    | progress cbn ];
  reflexivity.

(** The order of the phases, shared by the statements below. *)
Lemma main_phase_facts {W : Type} (os : OS W) (w : W) :
  guarded is_graft (ran_ok cmd_update) false (trace (main os w)) = true
  /\ guarded (ran cmd_update) (ran_ok cmd_sync) false (trace (main os w)) = true
  /\ guarded (ran cmd_sync) is_removing false (trace (main os w)) = true.
Proof.
  cbv [main bind try_except run print exists_ copytree
       ret raise subprocess_run_check lift_res is_ok].
  script_simpl.
  repeat first [os_step | phase_box].
  all: split; [phase_leaf | split; phase_leaf].
Qed.

(** X14. The phases of the workflow follow one another: every event of
    the final copy comes after a submodule update that exited with 0, the
    update after a sync that exited with 0, and the sync after the start
    of the removal. *)
Theorem workflow_phases_in_order {W : Type} (os : OS W) (w : W) :
  guarded is_graft (ran_ok cmd_update) false (trace (main os w)) = true
  /\ guarded (ran cmd_update) (ran_ok cmd_sync) false (trace (main os w)) = true
  /\ guarded (ran cmd_sync) is_removing false (trace (main os w)) = true.
Proof. apply main_phase_facts. Qed.

(** X15. [main] runs the clone without a working directory of its own,
    that is where the script was started, and every other command with
    the staging checkout as its working directory. *)
Theorem commands_run_in_staging {W : Type} (os : OS W) (w : W) :
  forallb run_in_place (trace (main os w)) = true.
Proof.
  revert w. change (within run_in_place (main os)).
  unfold main, remove_submodule, copy_local_repo_to_libs.
  repeat first [ apply within_for_each; intros ? | progress within_steps ].
  all: try reflexivity.
  all: try (apply within_mkdir; reflexivity).
  all: try (apply within_copytree; reflexivity).
  all: try (apply within_copy2; reflexivity).
Qed.
